(** * malloc_server: a named byte-buffer store behind a line protocol

    Shallow embedding of [src/mem/malloc_server.c] and the properties of its
    registry, its base64 codec, its command dispatcher and its session loop.

    Conventions of the embedding.
    - [size_t] and [unsigned long long] are 64 bits wide (the LP64 and LLP64
      targets named in the file header); a value is a [Z] and every
      operation that can wrap is written with [wrap].
    - A C [char] and a [uint8_t] are both an [ascii] (eight bits); a C string
      is a [string] read up to its first NUL, buffer contents are a
      [list ascii].
    - The host (allocator, stack contents) is a parameter of every call:
      both outcomes of every [malloc] and [realloc] the program calls are
      kept, whether the code tests the result or not, and so are both
      outcomes of the [strdup] of [add_alloc], whose result is linked into
      the registry untested.  The [strdup] of the request line, at
      line 208, is taken to return its copy.
    - An access outside the object it addresses has no defined behaviour in
      C; the embedding returns [Undefined] there instead of inventing one. *)

From Stdlib Require Import ZArith List String Ascii Bool Lia.
From Stdlib Require Import DecimalString.
Import ListNotations.

Local Open Scope string_scope.
Local Open Scope list_scope.
Local Open Scope Z_scope.

(** ** Machine integers and constants *)

Module C.

Definition SIZE_BITS : Z := 64.
Definition SIZE_MAX : Z := 2 ^ SIZE_BITS - 1.
Definition ULLONG_MAX : Z := 2 ^ 64 - 1.

(** Arithmetic on [size_t] is modulo [2 ^ 64]. *)
Definition wrap (z : Z) : Z := z mod 2 ^ SIZE_BITS.

(** Arithmetic on [uint32_t]. *)
Definition u32 (z : Z) : Z := z mod 2 ^ 32.

(** [#define BUFSIZE 8192] *)
Definition BUFSIZE : Z := 8192.

Definition len (s : string) : Z := Z.of_nat (String.length s).

Definition code (c : ascii) : Z := Z.of_N (N_of_ascii c).
Definition chr (z : Z) : ascii := ascii_of_N (Z.to_N z).

Definition NUL : ascii := Ascii.zero.
Definition LF : ascii := "010"%char.
Definition SP : ascii := " "%char.

(** A C string stops at its first NUL: what [strlen], [strdup], [strcmp],
    [strtok] and the [%s] conversion see of a byte array. *)
Fixpoint c_str (s : string) : string :=
  match s with
  | EmptyString => EmptyString
  | String c rest => if Ascii.eqb c NUL then EmptyString else String c (c_str rest)
  end.

Definition strdup (s : string) : string := c_str s.

(** [strcmp(a, b) == 0] *)
Definition streq (a b : string) : bool := String.eqb a b.

(** The successive results of [strtok(copy, " ")], [strtok(NULL, " ")], ...:
    the maximal runs of characters other than the space, in order.  [cur] is
    the run being read, reversed. *)
Fixpoint strtok_from (cur : list ascii) (s : string) : list string :=
  let flush rest :=
    match cur with
    | [] => rest
    | _ => string_of_list_ascii (rev cur) :: rest
    end in
  match s with
  | EmptyString => flush []
  | String c rest =>
      if Ascii.eqb c SP then flush (strtok_from [] rest)
      else strtok_from (c :: cur) rest
  end.

Definition strtok_all (s : string) : list string := strtok_from [] s.

(** [isspace] in the "C" locale. *)
Definition isspace (c : ascii) : bool :=
  let n := code c in (n =? 32) || ((9 <=? n) && (n <=? 13)).

Definition isdigit (c : ascii) : bool :=
  let n := code c in (48 <=? n) && (n <=? 57).

Fixpoint skip_space (s : string) : string :=
  match s with
  | String c rest => if isspace c then skip_space rest else s
  | EmptyString => s
  end.

(** The digits of [s] from its start, accumulated in base 10 without
    bound; the conversion itself saturates afterwards. *)
Fixpoint digits_value (acc : Z) (s : string) : Z :=
  match s with
  | String c rest =>
      if isdigit c then digits_value (10 * acc + (code c - 48)) rest else acc
  | EmptyString => acc
  end.

(** [strtoull(s, NULL, 10)] of ISO C: leading white space, an optional sign,
    then the longest run of decimal digits; no digits give zero, a value
    above [ULLONG_MAX] gives [ULLONG_MAX], and a minus sign negates in the
    unsigned type. *)
Definition strtoull (s : string) : Z :=
  let s1 := skip_space s in
  let '(neg, s2) :=
    match s1 with
    | String c rest =>
        if Ascii.eqb c "-"%char then (true, rest)
        else if Ascii.eqb c "+"%char then (false, rest)
        else (false, s1)
    | EmptyString => (false, s1)
    end in
  let v := digits_value 0 s2 in
  if ULLONG_MAX <? v then ULLONG_MAX
  else if neg then (2 ^ 64 - v) mod 2 ^ 64 else v.

(** The [%zu] conversion. *)
Definition fmt_zu (z : Z) : string := NilZero.string_of_uint (N.to_uint (Z.to_N z)).

(** What [snprintf(dst, size, ...)] stores before its terminating NUL when
    the whole text would be [s]: the first [size - 1] characters. *)
Definition snprintf_kept (size : Z) (s : string) : string :=
  String.substring 0 (Z.to_nat (size - 1)) s.

End C.

(** ** The host *)

(** What one call of [handle_command] (or of [recv_line]) meets outside the
    program: whether [malloc] (or [realloc]) grants the request whose result
    the code tests, by its size; whether it grants the
    [malloc(sizeof(AllocNode))] of [add_alloc] and whether the
    [strdup(name)] of [add_alloc] returns a copy, two results the code does
    not test; the contents of a fresh block; and the byte the stack holds
    where [send_line] leaves its buffer unwritten.  A call of
    [handle_command] makes at most one request of each kind. *)
Record host := mkHost {
  malloc_ok : Z -> bool;
  node_ok : bool;
  name_ok : bool;
  heap_garbage : nat -> ascii;
  stack_garbage : ascii
}.

(** ** The allocation registry *)

(** [struct AllocNode]: [name] is the string [strdup] made, [ptr] the
    contents of the block [malloc] returned, [next] the tail of the list.
    A node whose [name] is NULL is no [AllocNode] of the embedding: see
    [NullName] below. *)
Record AllocNode := mkNode {
  name : string;
  ptr : list ascii;
  size : Z
}.

(** The list hanging from [alloc_head], while every node of it has a
    name. *)
Definition registry := list AllocNode.

Fixpoint find_alloc (reg : registry) (nm : string) : option AllocNode :=
  match reg with
  | [] => None
  | n :: rest => if C.streq (name n) nm then Some n else find_alloc rest nm
  end.

Inductive add_result :=
  | Added (reg : registry)   (* return 0 *)
  | Exists                    (* return -1 *)
  | NoMem                     (* return -2 *)
  | NullNode                  (* [n] is NULL and [n->name] is stored *)
  | NullName.                 (* return 0, the new head has a NULL [name] *)

(** The block [malloc(n)] returns. *)
Definition fresh_block (h : host) (n : Z) : list ascii :=
  map (heap_garbage h) (seq 0 (Z.to_nat n)).

(** [add_alloc]: the lookup, the block, then the node and the copy of the
    name.  Neither of the last two results is tested: a NULL node is
    stored through at once; a NULL copy is linked in as the name of the
    new head, and [add_alloc] returns 0 all the same. *)
Definition add_alloc (h : host) (reg : registry) (nm : string) (sz : Z)
  : add_result :=
  match find_alloc reg nm with
  | Some _ => Exists
  | None =>
      let request := if sz =? 0 then 1 else sz in
      if malloc_ok h request
      then if node_ok h
           then if name_ok h
                then Added (mkNode (C.strdup nm) (fresh_block h request) sz :: reg)
                else NullName
           else NullNode
      else NoMem
  end.

(** [remove_alloc]: [None] is the return value -1. *)
Fixpoint remove_alloc (reg : registry) (nm : string) : option registry :=
  match reg with
  | [] => None
  | n :: rest =>
      if C.streq (name n) nm then Some rest
      else match remove_alloc rest nm with
           | Some rest' => Some (n :: rest')
           | None => None
           end
  end.

(** The node found by [find_alloc], with its block replaced: the effect of
    storing through [n->ptr]. *)
Fixpoint store_alloc (reg : registry) (nm : string) (blk : list ascii) : registry :=
  match reg with
  | [] => []
  | n :: rest =>
      if C.streq (name n) nm then mkNode (name n) blk (size n) :: rest
      else n :: store_alloc rest nm blk
  end.

(** ** Base64 helpers *)

Definition b64chars : string :=
  "ABCDEFGHIJKLMNOPQRSTUVWXYZabcdefghijklmnopqrstuvwxyz0123456789+/".

(** [b64chars[i]]; the index is always masked with [0x3F]. *)
Definition b64char (i : Z) : ascii :=
  match String.get (Z.to_nat i) b64chars with
  | Some c => c
  | None => C.NUL
  end.

(** The characters [base64_encode] stores through [p]: the loop over whole
    triples, then the [if (i < len)] tail with [rem] 1 or 2. *)
Fixpoint base64_encode_chars (data : list ascii) : string :=
  match data with
  | d0 :: d1 :: d2 :: rest =>
      let triple :=
        C.u32 (Z.lor (Z.lor (Z.shiftl (C.code d0) 16) (Z.shiftl (C.code d1) 8))
                     (C.code d2)) in
      String (b64char (Z.land (Z.shiftr triple 18) 63))
        (String (b64char (Z.land (Z.shiftr triple 12) 63))
          (String (b64char (Z.land (Z.shiftr triple 6) 63))
            (String (b64char (Z.land triple 63))
              (base64_encode_chars rest))))
  | [d0; d1] =>
      let triple :=
        C.u32 (Z.lor (Z.shiftl (C.code d0) 16) (Z.shiftl (C.code d1) 8)) in
      String (b64char (Z.land (Z.shiftr triple 18) 63))
        (String (b64char (Z.land (Z.shiftr triple 12) 63))
          (String (b64char (Z.land (Z.shiftr triple 6) 63))
            (String "="%char EmptyString)))
  | [d0] =>
      let triple := C.u32 (Z.lor (Z.shiftl (C.code d0) 16) 0) in
      String (b64char (Z.land (Z.shiftr triple 18) 63))
        (String (b64char (Z.land (Z.shiftr triple 12) 63))
          (String "="%char (String "="%char EmptyString)))
  | [] => EmptyString
  end.

(** [base64_encode(data, len)]; [None] is the NULL returned when [malloc]
    refuses the [out_len + 1] bytes.  [data] is a block read from memory,
    shorter than [2 ^ 64 - 2] bytes, so that [i + 2] does not wrap. *)
Definition base64_encode (h : host) (data : list ascii) : option string :=
  let len := Z.of_nat (List.length data) in
  let out_len := C.wrap (C.wrap (C.wrap (len + 2) / 3) * 4) in
  if malloc_ok h (C.wrap (out_len + 1))
  then Some (base64_encode_chars data)
  else None.

(** [b64val]: every comparison fails on a byte above 127 whether [char] is
    signed or not. *)
Definition b64val (c : ascii) : Z :=
  let n := C.code c in
  if (65 <=? n) && (n <=? 90) then n - 65
  else if (97 <=? n) && (n <=? 122) then n - 97 + 26
  else if (48 <=? n) && (n <=? 57) then n - 48 + 52
  else if n =? 43 then 62
  else if n =? 47 then 63
  else -1.

(** The body of the [for] loop of [base64_decode] on one group of four
    characters: [None] when the group is refused, otherwise the one to three
    bytes stored through [out]. *)
Definition base64_decode_group (c0 c1 c2 c3 : ascii) : option (list ascii) :=
  let v0 := b64val c0 in
  let v1 := b64val c1 in
  let v2 := if Ascii.eqb c2 "="%char then -2 else b64val c2 in
  let v3 := if Ascii.eqb c3 "="%char then -2 else b64val c3 in
  if (v0 <? 0) || (v1 <? 0) || (v2 <? -1) || (v3 <? -1) then None
  else
    let triple :=
      C.u32 (Z.lor (Z.lor (Z.lor (Z.shiftl v0 18) (Z.shiftl v1 12))
                          (Z.shiftl (if -1 <? v2 then v2 else 0) 6))
                   (if -1 <? v3 then v3 else 0)) in
    Some (C.chr (Z.land (Z.shiftr triple 16) 255)
          :: (if -1 <? v2 then [C.chr (Z.land (Z.shiftr triple 8) 255)] else [])
          ++ (if -1 <? v3 then [C.chr (Z.land triple 255)] else [])).

(** The [for (i = 0; i < len; i += 4)] loop; the length is a multiple of
    four when it runs, so the last pattern is never met. *)
Fixpoint base64_decode_loop (s : string) : option (list ascii) :=
  match s with
  | EmptyString => Some []
  | String c0 (String c1 (String c2 (String c3 rest))) =>
      match base64_decode_group c0 c1 c2 c3 with
      | None => None
      | Some bytes =>
          match base64_decode_loop rest with
          | None => None
          | Some out => Some (bytes ++ out)
          end
      end
  | _ => None
  end.

(** [base64_decode(in, &out_len)]: [None] is the NULL result, [Some out]
    the [out_len] bytes stored. *)
Definition base64_decode (h : host) (s : string) : option (list ascii) :=
  let len := C.len s in
  if negb (C.wrap len mod 4 =? 0) then None
  else
    let out_capacity := C.wrap (len / 4 * 3) in
    if malloc_ok h out_capacity then base64_decode_loop s else None.

(** ** Lines on the socket *)

(** [send_line] once its format is expanded to [text]: the bytes handed to
    [send], or [None] when [buf[n++] = '\n'] stores outside [buf].
    [vsnprintf] is given [sizeof(buf) - 2] and keeps one byte of that for
    the NUL; its result [n] is the full length of [text], negative when that
    length does not fit an [int]. *)
Definition INT_MAX : Z := 2 ^ 31 - 1.

Definition send_line (h : host) (text : string) : option string :=
  let n := C.len text in
  let kept := C.snprintf_kept (C.BUFSIZE - 2) text in
  if INT_MAX <? n then Some EmptyString
  else if n <? C.BUFSIZE - 2 then Some (text ++ String C.LF EmptyString)%string
  else if n =? C.BUFSIZE - 2
  then Some (kept ++ String C.NUL (String C.LF EmptyString))%string
  else if n =? C.BUFSIZE - 1
  then Some (kept ++ String C.NUL (String (stack_garbage h) (String C.LF EmptyString)))%string
  else None.

(** The loop of [recv_line] once its first [malloc] succeeded: [cap] and
    [len] as in the source, [acc] the bytes stored so far, reversed.  The
    result is the line and what is left on the socket; [None] is the NULL
    returned when [recv] reports the end of the stream or an error (the
    stream is exhausted) or when [realloc] fails. *)
Fixpoint recv_loop (h : host) (input : string) (cap len : Z) (acc : list ascii)
  : option (string * string) :=
  match input with
  | EmptyString => None
  | String c rest =>
      if Ascii.eqb c C.LF then Some (string_of_list_ascii (rev acc), rest)
      else if cap <=? len + 1
      then if malloc_ok h (C.wrap (cap * 2))
           then recv_loop h rest (C.wrap (cap * 2)) (len + 1) (c :: acc)
           else None
      else recv_loop h rest cap (len + 1) (c :: acc)
  end.

Definition recv_line (h : host) (input : string) : option (string * string) :=
  if malloc_ok h C.BUFSIZE then recv_loop h input C.BUFSIZE 0 [] else None.

(** ** Memory of one block *)

(** The [len] bytes at [blk + offset].  An access outside the block is not
    defined: [None]. *)
Definition mem_read (blk : list ascii) (offset len : Z) : option (list ascii) :=
  if offset + len <=? Z.of_nat (List.length blk)
  then Some (firstn (Z.to_nat len) (skipn (Z.to_nat offset) blk))
  else None.

(** The size of the request [base64_encode] makes for [len] bytes:
    [out_len + 1]. *)
Definition encode_request (len : Z) : Z :=
  C.wrap (C.wrap (C.wrap (C.wrap (len + 2) / 3) * 4) + 1).

(** [base64_encode(blk + offset, len)] as the READ branch calls it, on the
    memory of the block: the text, the NULL returned when [malloc] refuses
    [out_len + 1] bytes, which happens before any byte of [data] is read,
    or an access outside the block. *)
Inductive encoded :=
  | Encoded (text : string)
  | EncodeNull
  | EncodeOutside.

Definition base64_encode_at (h : host) (blk : list ascii) (offset len : Z)
  : encoded :=
  if malloc_ok h (encode_request len)
  then match mem_read blk offset len with
       | Some data => Encoded (base64_encode_chars data)
       | None => EncodeOutside
       end
  else EncodeNull.

(** [memcpy(blk + offset, data, data_len)]. *)
Definition memcpy_at (blk : list ascii) (offset : Z) (data : list ascii)
  : option (list ascii) :=
  let data_len := Z.of_nat (List.length data) in
  if offset + data_len <=? Z.of_nat (List.length blk)
  then Some (firstn (Z.to_nat offset) blk ++ data
             ++ skipn (Z.to_nat (offset + data_len)) blk)
  else None.

(** ** The command dispatcher *)

(** What a call of [handle_command] does: the bytes it hands to [send] and
    the registry it leaves; or no defined behaviour; or the bytes it hands
    to [send] when it leaves, at the head of the list, a node whose name is
    NULL. *)
Inductive outcome :=
  | Replied (bytes : string) (reg : registry)
  | Undefined
  | Nameless (bytes : string).

Definition reply (h : host) (text : string) (reg : registry) : outcome :=
  match send_line h text with
  | Some bytes => Replied bytes reg
  | None => Undefined
  end.

(** The text [snprintf] is asked to print for one node: ["%s:%zu;"]. *)
Definition list_item (n : AllocNode) : string :=
  (name n ++ ":" ++ C.fmt_zu (size n) ++ ";")%string.

(** The loop of the LIST branch: [pos] and [out] as in the source, [out]
    read as a C string.  [snprintf] stores at [out + pos], keeps
    [sizeof(out) - pos - 2] characters and returns the full length of the
    item (names are shorter than [INT_MAX], so [written] is not negative). *)
Fixpoint list_loop (nodes : registry) (pos : Z) (out : string) : string :=
  match nodes with
  | [] => out
  | n :: rest =>
      let item := list_item n in
      let written := C.len item in
      let out' :=
        (String.substring 0 (Z.to_nat pos) out
         ++ C.snprintf_kept (C.BUFSIZE - pos - 1) item)%string in
      let pos' := pos + written in
      if C.BUFSIZE <=? pos' + 100 then out' else list_loop rest pos' out'
  end.

Definition handle_command (h : host) (reg : registry) (line : string) : outcome :=
  let copy := C.strdup line in
  match C.strtok_all copy with
  | [] => reply h "ERR empty" reg
  | tok :: args =>
      if C.streq tok "ALLOC" then
        match args with
        | nm :: size_s :: _ =>
            let sz := C.wrap (C.strtoull size_s) in
            match add_alloc h reg nm sz with
            | Added reg' => reply h "OK" reg'
            | Exists => reply h "ERR already_exists" reg
            | NoMem => reply h "ERR nomem" reg
            | NullNode => Undefined
            | NullName =>
                match send_line h "OK" with
                | Some bytes => Nameless bytes
                | None => Undefined
                end
            end
        | _ => reply h "ERR ALLOC usage" reg
        end
      else if C.streq tok "WRITE" then
        match args with
        | nm :: offset_s :: b64 :: _ =>
            match find_alloc reg nm with
            | None => reply h "ERR not_found" reg
            | Some n =>
                let offset := C.wrap (C.strtoull offset_s) in
                match base64_decode h b64 with
                | None => reply h "ERR bad_base64" reg
                | Some data =>
                    let data_len := Z.of_nat (List.length data) in
                    if size n <? C.wrap (offset + data_len)
                    then reply h "ERR out_of_bounds" reg
                    else match memcpy_at (ptr n) offset data with
                         | Some blk => reply h "OK" (store_alloc reg nm blk)
                         | None => Undefined
                         end
                end
            end
        | _ => reply h "ERR WRITE usage" reg
        end
      else if C.streq tok "READ" then
        match args with
        | nm :: offset_s :: len_s :: _ =>
            match find_alloc reg nm with
            | None => reply h "ERR not_found" reg
            | Some n =>
                let offset := C.wrap (C.strtoull offset_s) in
                let len := C.wrap (C.strtoull len_s) in
                if size n <? C.wrap (offset + len)
                then reply h "ERR out_of_bounds" reg
                else match base64_encode_at h (ptr n) offset len with
                     | EncodeOutside => Undefined
                     | EncodeNull => reply h "ERR nomem" reg
                     | Encoded b64 => reply h ("OK " ++ b64)%string reg
                     end
            end
        | _ => reply h "ERR READ usage" reg
        end
      else if C.streq tok "FREE" then
        match args with
        | nm :: _ =>
            match remove_alloc reg nm with
            | Some reg' => reply h "OK" reg'
            | None => reply h "ERR not_found" reg
            end
        | _ => reply h "ERR FREE usage" reg
        end
      else if C.streq tok "LIST" then
        reply h ("OK " ++ list_loop reg 0 EmptyString)%string reg
      else if C.streq tok "EXIT" then
        reply h "OK bye" reg
      else
        reply h "ERR unknown_command" reg
  end.

(** [handle_command] once the head of the list is a node whose name is
    NULL: [find_alloc] and [remove_alloc] hand that NULL to [strcmp] at
    their first step, and the loop of LIST hands it to [snprintf] for its
    [%s], so that a line which reaches one of them has no defined
    behaviour ([None]); the other lines are answered as ever.  No node is
    put in front of that head, since [add_alloc] starts with
    [find_alloc]. *)
Definition handle_nameless (h : host) (line : string) : option string :=
  let copy := C.strdup line in
  match C.strtok_all copy with
  | [] => send_line h "ERR empty"
  | tok :: args =>
      if C.streq tok "ALLOC" then
        match args with
        | _ :: _ :: _ => None
        | _ => send_line h "ERR ALLOC usage"
        end
      else if C.streq tok "WRITE" then
        match args with
        | _ :: _ :: _ :: _ => None
        | _ => send_line h "ERR WRITE usage"
        end
      else if C.streq tok "READ" then
        match args with
        | _ :: _ :: _ :: _ => None
        | _ => send_line h "ERR READ usage"
        end
      else if C.streq tok "FREE" then
        match args with
        | _ :: _ => None
        | _ => send_line h "ERR FREE usage"
        end
      else if C.streq tok "LIST" then None
      else if C.streq tok "EXIT" then send_line h "OK bye"
      else send_line h "ERR unknown_command"
  end.

(** ** The session loop *)

(** How the [while (1)] loop over one client ends: [recv_line] returned
    NULL and the socket is closed, over a registry of named nodes or over
    a list whose head has a NULL name; or a command left defined
    behaviour. *)
Inductive session_end :=
  | Disconnected (reg : registry)
  | Crashed
  | DisconnectedNameless.

(** The tokens [handle_command] works on. *)
Definition tokens_of (line : string) : list string :=
  C.strtok_all (C.strdup line).

(** The inner loop of [main] when the head of the list has a NULL name,
    with [rs], [hs] and [fuel] as in [session_loop] below. *)
Fixpoint nameless_loop (fuel : nat) (rs hs : nat -> host) (input : string)
  : list string * session_end :=
  match fuel with
  | O => ([], Crashed)
  | S fuel' =>
      match recv_line (rs O) input with
      | None => ([], DisconnectedNameless)
      | Some (line, rest) =>
          match handle_nameless (hs O) line with
          | None => ([], Crashed)
          | Some bytes =>
              let '(sent, e) :=
                nameless_loop fuel' (fun k => rs (S k)) (fun k => hs (S k))
                  rest in
              (bytes :: sent, e)
          end
      end
  end.

(** The inner loop of [main] on the bytes the client sends before its end of
    stream: everything handed to [send], in order, and how the loop ends.
    [rs k] is the host met while the [k]-th line is read, [hs k] the host
    met while it is handled.  A line takes at least its newline from
    [input], so [fuel] above the length of [input] is never used up (see
    [session_unfold]). *)
Fixpoint session_loop (fuel : nat) (rs hs : nat -> host) (reg : registry)
  (input : string) : list string * session_end :=
  match fuel with
  | O => ([], Crashed)
  | S fuel' =>
      match recv_line (rs O) input with
      | None => ([], Disconnected reg)
      | Some (line, rest) =>
          match handle_command (hs O) reg line with
          | Undefined => ([], Crashed)
          | Replied bytes reg' =>
              let '(sent, e) :=
                session_loop fuel' (fun k => rs (S k)) (fun k => hs (S k))
                  reg' rest in
              (bytes :: sent, e)
          | Nameless bytes =>
              let '(sent, e) :=
                nameless_loop fuel' (fun k => rs (S k)) (fun k => hs (S k))
                  rest in
              (bytes :: sent, e)
          end
      end
  end.

Definition session (rs hs : nat -> host) (reg : registry) (input : string)
  : list string * session_end :=
  session_loop (S (String.length input)) rs hs reg input.

(** The same loop for a client that connects when the head of the list has
    a NULL name. *)
Definition nameless_session (rs hs : nat -> host) (input : string)
  : list string * session_end :=
  nameless_loop (S (String.length input)) rs hs input.

(** ** Predicates of the statements *)

(** At most one node per name. *)
Definition one_per_name (reg : registry) : Prop := NoDup (map name reg).

(** A live entry: what [find_alloc] returns. *)
Definition live (reg : registry) (nm : string) : bool :=
  match find_alloc reg nm with Some _ => true | None => false end.

(** The size [add_alloc] asks [malloc] for. *)
Definition alloc_request (sz : Z) : Z := if sz =? 0 then 1 else sz.

(** All the characters of a string satisfy [p]. *)
Fixpoint all_chars (p : ascii -> bool) (s : string) : bool :=
  match s with
  | EmptyString => true
  | String c rest => p c && all_chars p rest
  end.

Definition no_nul (s : string) : bool :=
  all_chars (fun c => negb (Ascii.eqb c C.NUL)) s.

(** The text the LIST branch builds when nothing is cut off. *)
Fixpoint listing (reg : registry) : string :=
  match reg with
  | [] => EmptyString
  | n :: rest => (list_item n ++ listing rest)%string
  end.

(** What LIST shows of a node. *)
Definition entry (n : AllocNode) : string * Z := (name n, size n).

(** The LIST payload in the words of the protocol table: the [name:size]
    pairs joined by [;]. *)
Definition joined_pairs (reg : registry) : string :=
  String.concat ";"
    (map (fun n => (name n ++ ":" ++ C.fmt_zu (size n))%string) reg).

(** The bytes of an outcome that has some. *)
Definition reply_bytes (o : outcome) : option string :=
  match o with
  | Replied bytes _ => Some bytes
  | Undefined => None
  | Nameless bytes => Some bytes
  end.

(** A token as [strtok] cuts them: not empty, without a space or a NUL. *)
Definition is_token (t : string) : bool :=
  negb (String.eqb t EmptyString)
  && all_chars (fun c => negb (Ascii.eqb c C.SP) && negb (Ascii.eqb c C.NUL)) t.

(** The arguments a command needs before it is looked at any further. *)
Definition arities : list (string * nat) :=
  [("ALLOC", 2%nat); ("WRITE", 3%nat); ("READ", 3%nat); ("FREE", 1%nat)].

(** The six commands of the protocol. *)
Definition commands : list string :=
  ["ALLOC"; "WRITE"; "READ"; "FREE"; "LIST"; "EXIT"].

(** A node as [add_alloc] makes it: a size that fits [size_t] and a block
    of as many bytes as [malloc] was asked for. *)
Definition block_ok (n : AllocNode) : bool :=
  (0 <=? size n) && (size n <? 2 ^ 64)
  && (Z.of_nat (List.length (ptr n)) =? alloc_request (size n)).

Definition blocks_ok (reg : registry) : Prop :=
  forallb block_ok reg = true.

(** A character of the base64 alphabet, and a character of encoded text
    (the alphabet and the pad). *)
Definition b64_alpha (c : ascii) : bool := 0 <=? b64val c.

Definition b64_text (c : ascii) : bool :=
  b64_alpha c || Ascii.eqb c "="%char.

(** The complete lines of a byte stream: the runs between newlines, in
    order, without the bytes after the last newline.  [cur] is the run
    being read, reversed. *)
Fixpoint lines_from (cur : list ascii) (input : string) : list string :=
  match input with
  | EmptyString => []
  | String c rest =>
      if Ascii.eqb c C.LF
      then string_of_list_ascii (rev cur) :: lines_from [] rest
      else lines_from (c :: cur) rest
  end.

(** [handle_nameless] on one line after the other. *)
Fixpoint run_nameless (hs : nat -> host) (lines : list string)
  : list string * session_end :=
  match lines with
  | [] => ([], DisconnectedNameless)
  | line :: rest =>
      match handle_nameless (hs O) line with
      | None => ([], Crashed)
      | Some bytes =>
          let '(sent, e) := run_nameless (fun k => hs (S k)) rest in
          (bytes :: sent, e)
      end
  end.

(** [handle_command] on one line after the other, the registry handed on:
    the replies in order, and the registry left when the lines are used
    up. *)
Fixpoint run_lines (hs : nat -> host) (reg : registry) (lines : list string)
  : list string * session_end :=
  match lines with
  | [] => ([], Disconnected reg)
  | line :: rest =>
      match handle_command (hs O) reg line with
      | Undefined => ([], Crashed)
      | Replied bytes reg' =>
          let '(sent, e) := run_lines (fun k => hs (S k)) reg' rest in
          (bytes :: sent, e)
      | Nameless bytes =>
          let '(sent, e) := run_nameless (fun k => hs (S k)) rest in
          (bytes :: sent, e)
      end
  end.


(** A host whose allocator grants every request. *)
Definition grants_all (h : host) : Prop := forall sz, malloc_ok h sz = true.

(** Text without a newline, and a registry whose names have none. *)
Definition no_lf (s : string) : bool :=
  all_chars (fun c => negb (Ascii.eqb c C.LF)) s.

Definition names_no_lf (reg : registry) : Prop :=
  forallb no_lf (map name reg) = true.

(** ** Concrete hosts and inputs for the examples *)

(** A host that grants every request. *)
Definition plain_host : host :=
  mkHost (fun _ => true) true true (fun _ => "x"%char) "y"%char.

(** A host whose allocator refuses every request. *)
Definition starved_host : host :=
  mkHost (fun _ => false) false false (fun _ => "x"%char) "y"%char.

Definition LFs : string := String C.LF EmptyString.

(** A name of 8100 characters. *)
Definition long_name : string :=
  string_of_list_ascii (repeat "a"%char (Z.to_nat 8100)).

(** A name of 8186 characters: with [OK ], [:1;] its listing has 8192. *)
Definition longer_name : string :=
  string_of_list_ascii (repeat "a"%char (Z.to_nat 8186)).

(** * Properties *)

(** ** C strings and tokens *)

Lemma c_str_no_nul (s : string) : no_nul (C.c_str s) = true.
Proof.
  unfold no_nul.
  induction s as [|c s IH]; cbn [C.c_str]; [reflexivity|].
  destruct (Ascii.eqb c C.NUL) eqn:E; cbn [all_chars]; [reflexivity|].
  now rewrite E, IH.
Qed.

Lemma c_str_fixed (s : string) : no_nul s = true -> C.c_str s = s.
Proof.
  unfold no_nul.
  induction s as [|c s IH]; cbn [C.c_str all_chars]; [reflexivity|].
  intros H. apply andb_prop in H as [Hc Hs].
  apply negb_true_iff in Hc. rewrite Hc. f_equal. now apply IH.
Qed.

Lemma no_nul_of_list (l : list ascii) :
  no_nul (string_of_list_ascii l)
  = forallb (fun c => negb (Ascii.eqb c C.NUL)) l.
Proof.
  unfold no_nul.
  induction l as [|c l IH]; cbn [string_of_list_ascii all_chars forallb];
    [reflexivity|].
  now rewrite <- IH.
Qed.

Lemma all_chars_of_list p (l : list ascii) :
  all_chars p (string_of_list_ascii l) = forallb p l.
Proof.
  induction l as [|c l IH]; cbn [string_of_list_ascii all_chars forallb];
    [reflexivity|now rewrite IH].
Qed.

Lemma forallb_rev_true {A} (p : A -> bool) (l : list A) :
  forallb p l = true -> forallb p (rev l) = true.
Proof.
  rewrite !forallb_forall. intros H x Hx. apply H. now apply in_rev.
Qed.

Lemma strtok_from_no_nul (s : string) : forall cur,
  forallb (fun c => negb (Ascii.eqb c C.NUL)) cur = true ->
  no_nul s = true ->
  Forall (fun t => no_nul t = true) (C.strtok_from cur s).
Proof.
  induction s as [|c s IH]; intros cur Hcur Hs; cbn [C.strtok_from].
  - destruct cur; [constructor|].
    constructor; [|constructor].
    rewrite no_nul_of_list. now apply forallb_rev_true.
  - unfold no_nul in Hs. cbn [all_chars] in Hs.
    apply andb_prop in Hs as [Hc Hs].
    destruct (Ascii.eqb c C.SP).
    + destruct cur.
      * apply IH; [reflexivity|exact Hs].
      * constructor; [|apply IH; [reflexivity|exact Hs]].
        rewrite no_nul_of_list. now apply forallb_rev_true.
    + apply IH; [|exact Hs]. cbn [forallb]. now rewrite Hc, Hcur.
Qed.

(** Every token [handle_command] sees is a C string of its own. *)
Lemma tokens_no_nul (line : string) :
  Forall (fun t => no_nul t = true) (tokens_of line).
Proof.
  apply strtok_from_no_nul; [reflexivity|apply c_str_no_nul].
Qed.

Lemma strtok_from_spaces (s : string) :
  all_chars (fun c => Ascii.eqb c C.SP) s = true -> C.strtok_from [] s = [].
Proof.
  induction s as [|c s IH]; cbn [all_chars C.strtok_from]; [reflexivity|].
  intros H. apply andb_prop in H as [Hc Hs]. rewrite Hc. now apply IH.
Qed.

(** ** The registry *)

Lemma find_alloc_name reg nm n : find_alloc reg nm = Some n -> name n = nm.
Proof.
  induction reg as [|m reg IH]; simpl; [discriminate|].
  unfold C.streq. destruct (String.eqb (name m) nm) eqn:E.
  - intros [= <-]. now apply String.eqb_eq.
  - exact IH.
Qed.

Lemma find_alloc_none reg nm :
  find_alloc reg nm = None <-> ~ In nm (map name reg).
Proof.
  induction reg as [|m reg IH]; simpl.
  - split; [intros _ []|reflexivity].
  - unfold C.streq. destruct (String.eqb (name m) nm) eqn:E.
    + apply String.eqb_eq in E. split; [discriminate|]. intros H. elim H. now left.
    + apply String.eqb_neq in E. rewrite IH. tauto.
Qed.

Lemma store_alloc_names reg nm blk :
  map name (store_alloc reg nm blk) = map name reg.
Proof.
  induction reg as [|m reg IH]; simpl; [reflexivity|].
  destruct (C.streq (name m) nm); simpl; [reflexivity|now rewrite IH].
Qed.

Lemma remove_alloc_incl reg nm : forall reg',
  remove_alloc reg nm = Some reg' ->
  forall x, In x (map name reg') -> In x (map name reg).
Proof.
  induction reg as [|m reg IH]; simpl; intros reg' H x Hx; [discriminate|].
  destruct (C.streq (name m) nm).
  - injection H as <-. now right.
  - destruct (remove_alloc reg nm) as [r|]; [|discriminate].
    injection H as <-. simpl in Hx. destruct Hx as [Hx|Hx]; [now left|].
    right. now apply (IH r).
Qed.

Lemma remove_alloc_one_per_name reg nm : forall reg',
  one_per_name reg -> remove_alloc reg nm = Some reg' -> one_per_name reg'.
Proof.
  unfold one_per_name.
  induction reg as [|m reg IH]; simpl; intros reg' Hnd H; [discriminate|].
  inversion Hnd as [|? ? Hnotin Hnd']; subst.
  destruct (C.streq (name m) nm).
  - now injection H as <-.
  - destruct (remove_alloc reg nm) as [r|] eqn:E; [|discriminate].
    injection H as <-. simpl. constructor.
    + intros Hin. apply Hnotin. now apply (remove_alloc_incl reg nm r).
    + now apply IH.
Qed.

(** Removing the only node of a name leaves none of that name. *)
Lemma remove_alloc_gone reg nm : forall reg',
  one_per_name reg -> remove_alloc reg nm = Some reg' ->
  find_alloc reg' nm = None.
Proof.
  unfold one_per_name.
  induction reg as [|m reg IH]; simpl; intros reg' Hnd H; [discriminate|].
  inversion Hnd as [|? ? Hnotin Hnd']; subst.
  unfold C.streq in *. destruct (String.eqb (name m) nm) eqn:E.
  - injection H as <-. apply String.eqb_eq in E. subst nm.
    now apply find_alloc_none.
  - destruct (remove_alloc reg nm) as [r|] eqn:E'; [|discriminate].
    injection H as <-. simpl. unfold C.streq. rewrite E. now apply IH.
Qed.

Lemma remove_alloc_live reg nm :
  live reg nm = true -> exists reg', remove_alloc reg nm = Some reg'.
Proof.
  unfold live.
  induction reg as [|m reg IH]; simpl; [discriminate|].
  destruct (C.streq (name m) nm); [eauto|].
  intros H. destruct (IH H) as [r ->]. eauto.
Qed.

Lemma remove_alloc_absent reg nm :
  find_alloc reg nm = None -> remove_alloc reg nm = None.
Proof.
  induction reg as [|m reg IH]; simpl; [reflexivity|].
  destruct (C.streq (name m) nm); [discriminate|].
  intros H. now rewrite (IH H).
Qed.

(** ** Short replies *)

Lemma send_line_short h text :
  C.len text < C.BUFSIZE - 2 ->
  send_line h text = Some (text ++ LFs)%string.
Proof.
  intros H. unfold send_line.
  assert ((INT_MAX <? C.len text) = false) as ->.
  { apply Z.ltb_ge. unfold INT_MAX, C.BUFSIZE in *. lia. }
  apply Z.ltb_lt in H. now rewrite H.
Qed.

Ltac short_reply :=
  unfold reply; rewrite send_line_short by (vm_compute; reflexivity).

(** ** Lines without a token *)

(** C10, as the code has it: a request line whose C string is empty or
    holds nothing but space characters is answered [ERR empty], and the
    registry is left as it was. *)
Theorem empty_line_reply (h : host) (reg : registry) (line : string) :
  all_chars (fun c => Ascii.eqb c C.SP) (C.c_str line) = true ->
  handle_command h reg line = Replied ("ERR empty" ++ LFs)%string reg.
Proof.
  intros H. unfold handle_command, C.strtok_all, C.strdup.
  rewrite (strtok_from_spaces _ H). now short_reply.
Qed.

Lemma empty_line_reply_witness :
  handle_command plain_host [mkNode "foo" ["a"%char] 1] "   "
  = Replied ("ERR empty" ++ LFs)%string [mkNode "foo" ["a"%char] 1].
Proof. apply empty_line_reply. reflexivity. Defined.

(** C10, as the claim has it, fails on a line of white space other than
    spaces: [strtok] is given the space as its only delimiter, so a tab is
    a token, and the line is answered as an unknown command. *)
Lemma tab_line_not_empty :
  C.isspace "009"%char = true /\
  handle_command plain_host [] (String "009"%char EmptyString)
  = Replied ("ERR unknown_command" ++ LFs)%string [] /\
  handle_command plain_host [] (String "009"%char EmptyString)
  <> Replied ("ERR empty" ++ LFs)%string [].
Proof. repeat split. vm_compute. discriminate. Qed.

(** ** Allocation *)

Lemma add_alloc_fresh h reg nm sz :
  find_alloc reg nm = None -> malloc_ok h (alloc_request sz) = true ->
  node_ok h = true -> name_ok h = true ->
  add_alloc h reg nm sz
  = Added (mkNode (C.strdup nm) (fresh_block h (alloc_request sz)) sz :: reg).
Proof.
  intros Hf Hm Hn Hc. unfold add_alloc. rewrite Hf. fold (alloc_request sz).
  now rewrite Hm, Hn, Hc.
Qed.

Lemma fresh_block_length h n : List.length (fresh_block h n) = Z.to_nat n.
Proof. unfold fresh_block. now rewrite length_map, length_seq. Qed.

(** C9: on a fresh name and a host that grants one byte, the list node
    and the copy of the name, [ALLOC name 0] is answered [OK]; the node put
    at the head of the registry has size 0 and a block of one byte, the
    byte [malloc] was asked for. *)
Theorem alloc_zero_size (h : host) (reg : registry) (line nm size_s : string)
  (rest : list string) :
  tokens_of line = "ALLOC" :: nm :: size_s :: rest ->
  C.strtoull size_s = 0 ->
  find_alloc reg nm = None ->
  malloc_ok h 1 = true ->
  node_ok h = true ->
  name_ok h = true ->
  exists n,
    handle_command h reg line = Replied ("OK" ++ LFs)%string (n :: reg)
    /\ name n = nm /\ size n = 0 /\ List.length (ptr n) = 1%nat
    /\ find_alloc (n :: reg) nm = Some n.
Proof.
  intros Htok Hsz Hfresh Hm Hnode Hcopy.
  pose proof (tokens_no_nul line) as Hnn. rewrite Htok in Hnn.
  inversion Hnn as [|? ? _ Hnn']; subst. inversion Hnn' as [|? ? Hnm _]; subst.
  eexists. split; [|split; [|split; [|split]]].
  - unfold handle_command. fold (tokens_of line). rewrite Htok.
    cbn [C.streq String.eqb Ascii.eqb Bool.eqb].
    rewrite Hsz. change (C.wrap 0) with 0.
    rewrite (add_alloc_fresh h reg nm 0 Hfresh Hm Hnode Hcopy).
    now short_reply.
  - cbn [name]. now apply c_str_fixed.
  - reflexivity.
  - cbn [ptr]. now rewrite fresh_block_length.
  - cbn [find_alloc name]. unfold C.strdup, C.streq.
    now rewrite (c_str_fixed nm Hnm), String.eqb_refl.
Qed.

Lemma alloc_zero_size_witness :
  exists n,
    handle_command plain_host [] "ALLOC foo 0"
    = Replied ("OK" ++ LFs)%string [n]
    /\ name n = "foo" /\ size n = 0 /\ List.length (ptr n) = 1%nat
    /\ find_alloc [n] "foo" = Some n.
Proof.
  apply (alloc_zero_size plain_host [] "ALLOC foo 0" "foo" "0" []);
    reflexivity.
Defined.

Lemma reply_inv h text reg bytes reg' :
  reply h text reg = Replied bytes reg' -> reg' = reg.
Proof.
  unfold reply. destruct (send_line h text); [|discriminate].
  now intros [= _ <-].
Qed.

Lemma add_alloc_added h reg nm sz reg' :
  add_alloc h reg nm sz = Added reg' ->
  find_alloc reg nm = None /\
  reg' = mkNode (C.strdup nm) (fresh_block h (alloc_request sz)) sz :: reg.
Proof.
  unfold add_alloc, alloc_request.
  destruct (find_alloc reg nm); [discriminate|].
  destruct (malloc_ok h _); [|discriminate].
  destruct (node_ok h); [|discriminate].
  destruct (name_ok h); [|discriminate].
  intros [= <-]. now split.
Qed.

Lemma add_alloc_exists h reg nm sz :
  live reg nm = true -> add_alloc h reg nm sz = Exists.
Proof.
  unfold live, add_alloc. now destruct (find_alloc reg nm).
Qed.

(** ** One entry per name *)

(** Every branch of [handle_command] keeps the names of the registry
    distinct. *)
Lemma handle_command_one_per_name h reg line bytes reg' :
  one_per_name reg ->
  handle_command h reg line = Replied bytes reg' ->
  one_per_name reg'.
Proof.
  intros Hinv H. pose proof (tokens_no_nul line) as Hnn.
  unfold handle_command in H. fold (tokens_of line) in H.
  destruct (tokens_of line) as [|tok args].
  { apply reply_inv in H. now subst. }
  destruct (C.streq tok "ALLOC").
  { destruct args as [|nm [|size_s args]];
      try (apply reply_inv in H; now subst).
    destruct (add_alloc h reg nm _) as [r| | | |] eqn:E; try discriminate H;
      try (apply reply_inv in H; now subst).
    apply reply_inv in H. subst reg'.
    apply add_alloc_added in E as [Hfresh ->].
    inversion Hnn as [|? ? _ Hnn']; subst. inversion Hnn' as [|? ? Hnm _]; subst.
    unfold one_per_name. cbn [map name]. unfold C.strdup.
    rewrite (c_str_fixed nm Hnm). constructor; [|exact Hinv].
    now apply find_alloc_none. }
  destruct (C.streq tok "WRITE").
  { destruct args as [|nm [|offset_s [|b64 args]]];
      try (apply reply_inv in H; now subst).
    destruct (find_alloc reg nm) as [n|];
      [|apply reply_inv in H; now subst].
    destruct (base64_decode h b64) as [data|];
      [|apply reply_inv in H; now subst].
    destruct (size n <? _); [apply reply_inv in H; now subst|].
    destruct (memcpy_at (ptr n) _ data) as [blk|]; [|discriminate].
    apply reply_inv in H. subst reg'.
    unfold one_per_name. now rewrite store_alloc_names. }
  destruct (C.streq tok "READ").
  { destruct args as [|nm [|offset_s [|len_s args]]];
      try (apply reply_inv in H; now subst).
    destruct (find_alloc reg nm) as [n|];
      [|apply reply_inv in H; now subst].
    destruct (size n <? _); [apply reply_inv in H; now subst|].
    destruct (base64_encode_at h (ptr n) _ _) as [b64| |];
      try discriminate H; apply reply_inv in H; now subst. }
  destruct (C.streq tok "FREE").
  { destruct args as [|nm args]; [apply reply_inv in H; now subst|].
    destruct (remove_alloc reg nm) as [r|] eqn:E;
      apply reply_inv in H; subst reg'; [|exact Hinv].
    now apply (remove_alloc_one_per_name reg nm). }
  destruct (C.streq tok "LIST"); [apply reply_inv in H; now subst|].
  destruct (C.streq tok "EXIT"); apply reply_inv in H; now subst.
Qed.

(** ALLOC answers one of three lines, unless [add_alloc] stores through a
    NULL node. *)
Lemma alloc_reply h reg line nm size_s rest :
  tokens_of line = "ALLOC" :: nm :: size_s :: rest ->
  handle_command h reg line
  = match add_alloc h reg nm (C.wrap (C.strtoull size_s)) with
    | Added reg' => Replied ("OK" ++ LFs)%string reg'
    | Exists => Replied ("ERR already_exists" ++ LFs)%string reg
    | NoMem => Replied ("ERR nomem" ++ LFs)%string reg
    | NullNode => Undefined
    | NullName => Nameless ("OK" ++ LFs)%string
    end.
Proof.
  intros Htok. unfold handle_command. fold (tokens_of line). rewrite Htok.
  cbn [C.streq String.eqb Ascii.eqb Bool.eqb].
  destruct (add_alloc h reg nm _); try reflexivity; now short_reply.
Qed.

(** C5: the empty registry has at most one entry per name; every command
    that is answered keeps it so; and an ALLOC that was not refused for
    lack of memory, sent again at once, is answered [ERR already_exists]
    and leaves the registry as the first one left it. *)
Theorem one_entry_per_name :
  one_per_name []
  /\ (forall h reg line bytes reg',
        one_per_name reg ->
        handle_command h reg line = Replied bytes reg' ->
        one_per_name reg')
  /\ (forall h1 h2 reg line nm size_s rest bytes1 reg1,
        tokens_of line = "ALLOC" :: nm :: size_s :: rest ->
        handle_command h1 reg line = Replied bytes1 reg1 ->
        bytes1 <> ("ERR nomem" ++ LFs)%string ->
        handle_command h2 reg1 line
        = Replied ("ERR already_exists" ++ LFs)%string reg1).
Proof.
  split; [constructor|]. split; [exact handle_command_one_per_name|].
  intros h1 h2 reg line nm size_s rest bytes1 reg1 Htok H1 Hnomem.
  pose proof (tokens_no_nul line) as Hnn. rewrite Htok in Hnn.
  inversion Hnn as [|? ? _ Hnn']; subst. inversion Hnn' as [|? ? Hnm _]; subst.
  rewrite (alloc_reply h1 reg line nm size_s rest Htok) in H1.
  rewrite (alloc_reply h2 reg1 line nm size_s rest Htok).
  assert (live reg1 nm = true) as Hlive.
  { destruct (add_alloc h1 reg nm _) as [r| | | |] eqn:E;
      [| | |discriminate H1|discriminate H1].
    - injection H1 as _ <-. apply add_alloc_added in E as [_ ->].
      unfold live. cbn [find_alloc name]. unfold C.strdup, C.streq.
      now rewrite (c_str_fixed nm Hnm), String.eqb_refl.
    - injection H1 as _ <-. unfold add_alloc in E. unfold live.
      destruct (find_alloc reg nm); [reflexivity|].
      destruct (malloc_ok h1 _);
        [destruct (node_ok h1); [destruct (name_ok h1)|]|]; discriminate E.
    - injection H1 as <- _. now elim Hnomem. }
  now rewrite (add_alloc_exists h2 reg1 nm _ Hlive).
Qed.

Lemma one_entry_per_name_witness :
  one_per_name [mkNode "foo" (fresh_block plain_host 10) 10]
  /\ handle_command plain_host [mkNode "foo" (fresh_block plain_host 10) 10]
       "ALLOC foo 10"
     = Replied ("ERR already_exists" ++ LFs)%string
         [mkNode "foo" (fresh_block plain_host 10) 10].
Proof.
  destruct one_entry_per_name as [H0 [Hstep Htwice]]. split.
  - apply (Hstep plain_host [] "ALLOC foo 10" ("OK" ++ LFs)%string);
      [exact H0|reflexivity].
  - apply (Htwice plain_host plain_host [] "ALLOC foo 10" "foo" "10" []
             ("OK" ++ LFs)%string);
      [reflexivity|reflexivity|discriminate].
Defined.

(** ** Release and reuse of a name *)

Lemma remove_alloc_other reg nm : forall reg' other,
  remove_alloc reg nm = Some reg' -> other <> nm ->
  find_alloc reg' other = find_alloc reg other.
Proof.
  induction reg as [|m reg IH]; simpl; intros reg' other H Hneq; [discriminate|].
  unfold C.streq in *. destruct (String.eqb (name m) nm) eqn:E.
  - injection H as <-. apply String.eqb_eq in E.
    destruct (String.eqb (name m) other) eqn:E'; [|reflexivity].
    apply String.eqb_eq in E'. congruence.
  - destruct (remove_alloc reg nm) as [r|]; [|discriminate].
    injection H as <-. simpl. unfold C.streq.
    destruct (String.eqb (name m) other); [reflexivity|]. now apply IH.
Qed.

Lemma free_reply h reg line nm rest :
  tokens_of line = "FREE" :: nm :: rest ->
  handle_command h reg line
  = match remove_alloc reg nm with
    | Some reg' => Replied ("OK" ++ LFs)%string reg'
    | None => Replied ("ERR not_found" ++ LFs)%string reg
    end.
Proof.
  intros Htok. unfold handle_command. fold (tokens_of line). rewrite Htok.
  cbn [C.streq String.eqb Ascii.eqb Bool.eqb].
  destruct (remove_alloc reg nm); now short_reply.
Qed.

(** C8: with one entry per name and a live entry [nm], [FREE nm] is
    answered [OK] and leaves a registry without [nm] in which every other
    name is found as before; the same FREE sent again is answered
    [ERR not_found] and changes nothing; an ALLOC of [nm] sent after that
    is answered [OK] and puts a node of that name and the requested size at
    the head of the registry, provided the host grants the block, the list
    node and the copy of the name. *)
Theorem free_then_reuse (h1 h2 h3 : host) (reg : registry)
  (l_free l_alloc nm size_s : string) (rest1 rest2 : list string) :
  one_per_name reg ->
  live reg nm = true ->
  tokens_of l_free = "FREE" :: nm :: rest1 ->
  tokens_of l_alloc = "ALLOC" :: nm :: size_s :: rest2 ->
  malloc_ok h3 (alloc_request (C.wrap (C.strtoull size_s))) = true ->
  node_ok h3 = true ->
  name_ok h3 = true ->
  exists reg1 n,
    handle_command h1 reg l_free = Replied ("OK" ++ LFs)%string reg1
    /\ live reg1 nm = false
    /\ (forall other, other <> nm -> find_alloc reg1 other = find_alloc reg other)
    /\ handle_command h2 reg1 l_free
       = Replied ("ERR not_found" ++ LFs)%string reg1
    /\ handle_command h3 reg1 l_alloc = Replied ("OK" ++ LFs)%string (n :: reg1)
    /\ name n = nm /\ size n = C.wrap (C.strtoull size_s)
    /\ live (n :: reg1) nm = true.
Proof.
  intros Hinv Hlive Hfree Halloc Hm Hnode Hcopy.
  destruct (remove_alloc_live reg nm Hlive) as [reg1 Hrem].
  pose proof (remove_alloc_gone reg nm reg1 Hinv Hrem) as Hgone.
  pose proof (tokens_no_nul l_free) as Hnn. rewrite Hfree in Hnn.
  inversion Hnn as [|? ? _ Hnn']; subst. inversion Hnn' as [|? ? Hnm _]; subst.
  exists reg1.
  exists (mkNode (C.strdup nm)
            (fresh_block h3 (alloc_request (C.wrap (C.strtoull size_s))))
            (C.wrap (C.strtoull size_s))).
  split; [|split; [|split; [|split; [|split; [|split; [|split]]]]]].
  - now rewrite (free_reply h1 reg l_free nm rest1 Hfree), Hrem.
  - unfold live. now rewrite Hgone.
  - intros other Hneq. now apply (remove_alloc_other reg nm).
  - rewrite (free_reply h2 reg1 l_free nm rest1 Hfree).
    now rewrite (remove_alloc_absent reg1 nm Hgone).
  - rewrite (alloc_reply h3 reg1 l_alloc nm size_s rest2 Halloc).
    now rewrite (add_alloc_fresh h3 reg1 nm _ Hgone Hm Hnode Hcopy).
  - cbn [name]. now apply c_str_fixed.
  - reflexivity.
  - unfold live. cbn [find_alloc name]. unfold C.strdup, C.streq.
    now rewrite (c_str_fixed nm Hnm), String.eqb_refl.
Qed.

Lemma free_then_reuse_witness :
  exists reg1 n,
    handle_command plain_host [mkNode "foo" ["a"%char; "b"%char] 2] "FREE foo"
    = Replied ("OK" ++ LFs)%string reg1
    /\ live reg1 "foo" = false
    /\ (forall other, other <> "foo" ->
        find_alloc reg1 other
        = find_alloc [mkNode "foo" ["a"%char; "b"%char] 2] other)
    /\ handle_command starved_host reg1 "FREE foo"
       = Replied ("ERR not_found" ++ LFs)%string reg1
    /\ handle_command plain_host reg1 "ALLOC foo 7"
       = Replied ("OK" ++ LFs)%string (n :: reg1)
    /\ name n = "foo" /\ size n = C.wrap (C.strtoull "7")
    /\ live (n :: reg1) "foo" = true.
Proof.
  apply (free_then_reuse plain_host starved_host plain_host
           [mkNode "foo" ["a"%char; "b"%char] 2]
           "FREE foo" "ALLOC foo 7" "foo" "7" [] []).
  - repeat constructor. intros [].
  - reflexivity.
  - reflexivity.
  - reflexivity.
  - reflexivity.
  - reflexivity.
  - reflexivity.
Defined.

(** ** The session *)

Lemma string_of_rev_cons c acc :
  string_of_list_ascii (rev (c :: acc))
  = (string_of_list_ascii (rev acc) ++ String c EmptyString)%string.
Proof.
  cbn [rev]. generalize (rev acc) as l.
  induction l as [|x l IH]; cbn [app string_of_list_ascii String.append];
    [reflexivity|now rewrite IH].
Qed.

Lemma append_assoc (a b c : string) :
  ((a ++ b) ++ c = a ++ (b ++ c))%string.
Proof.
  induction a as [|x a IH]; cbn [String.append]; [reflexivity|now rewrite IH].
Qed.

(** What [recv_line] returns is the input up to its first newline, and what
    it leaves is the input after that newline. *)
Lemma recv_loop_split h input : forall cap len acc line rest,
  recv_loop h input cap len acc = Some (line, rest) ->
  exists body,
    line = (string_of_list_ascii (rev acc) ++ body)%string
    /\ input = (body ++ String C.LF rest)%string.
Proof.
  induction input as [|c input IH]; intros cap len acc line rest H;
    cbn [recv_loop] in H; [discriminate|].
  destruct (Ascii.eqb c C.LF) eqn:E.
  - apply Ascii.eqb_eq in E. subst c. injection H as <- <-.
    exists EmptyString. split; [|reflexivity].
    generalize (string_of_list_ascii (rev acc)) as s.
    induction s as [|x s IHs]; cbn [String.append]; [reflexivity|now rewrite <- IHs].
  - assert (recv_loop h input (if cap <=? len + 1 then C.wrap (cap * 2) else cap)
              (len + 1) (c :: acc) = Some (line, rest)) as H'.
    { destruct (cap <=? len + 1); [|exact H].
      now destruct (malloc_ok h (C.wrap (cap * 2))). }
    apply IH in H' as [body [-> ->]].
    exists (String c body). split; [|reflexivity].
    now rewrite string_of_rev_cons, append_assoc.
Qed.

Lemma recv_line_split h input line rest :
  recv_line h input = Some (line, rest) ->
  input = (line ++ String C.LF rest)%string.
Proof.
  unfold recv_line. destruct (malloc_ok h C.BUFSIZE); [|discriminate].
  intros H. now apply recv_loop_split in H as [body [-> ->]].
Qed.

Lemma length_append (a b : string) :
  String.length (a ++ b) = (String.length a + String.length b)%nat.
Proof.
  induction a as [|x a IH]; cbn [String.append String.length];
    [reflexivity|now rewrite IH].
Qed.

Lemma recv_line_shorter h input line rest :
  recv_line h input = Some (line, rest) ->
  (String.length rest < String.length input)%nat.
Proof.
  intros H. apply recv_line_split in H. subst input.
  rewrite length_append. cbn [String.length]. lia.
Qed.

Lemma nameless_loop_fuel : forall fuel1 fuel2 rs hs input,
  (String.length input < fuel1)%nat -> (String.length input < fuel2)%nat ->
  nameless_loop fuel1 rs hs input = nameless_loop fuel2 rs hs input.
Proof.
  induction fuel1 as [|fuel1 IH]; intros fuel2 rs hs input H1 H2; [lia|].
  destruct fuel2 as [|fuel2]; [lia|]. cbn [nameless_loop].
  destruct (recv_line (rs O) input) as [[line rest]|] eqn:E; [|reflexivity].
  destruct (handle_nameless (hs O) line) as [bytes|]; [|reflexivity].
  apply recv_line_shorter in E.
  now rewrite (IH fuel2) by lia.
Qed.



Lemma nameless_unfold rs hs input :
  nameless_session rs hs input
  = match recv_line (rs O) input with
    | None => ([], DisconnectedNameless)
    | Some (line, rest) =>
        match handle_nameless (hs O) line with
        | None => ([], Crashed)
        | Some bytes =>
            let '(sent, e) :=
              nameless_session (fun k => rs (S k)) (fun k => hs (S k)) rest in
            (bytes :: sent, e)
        end
    end.
Proof.
  unfold nameless_session at 1. cbn [nameless_loop].
  destruct (recv_line (rs O) input) as [[line rest]|] eqn:E; [|reflexivity].
  apply recv_line_shorter in E.
  destruct (handle_nameless (hs O) line) as [bytes|]; [|reflexivity].
  unfold nameless_session.
  now rewrite (nameless_loop_fuel (String.length input)
                 (S (String.length rest))) by lia.
Qed.










(** ** LIST *)

Lemma substring_all (s : string) : forall n,
  (String.length s <= n)%nat -> String.substring 0 n s = s.
Proof.
  induction s as [|c s IH]; intros n H.
  - now destruct n.
  - destruct n as [|n]; cbn [String.length] in H; [lia|].
    cbn [String.substring]. rewrite IH by lia. reflexivity.
Qed.

Lemma len_append (a b : string) : C.len (a ++ b) = C.len a + C.len b.
Proof. unfold C.len. rewrite length_append. lia. Qed.

Lemma len_nonneg (s : string) : 0 <= C.len s.
Proof. unfold C.len. lia. Qed.

Lemma append_empty (s : string) : (s ++ EmptyString)%string = s.
Proof.
  induction s as [|c s IH]; cbn [String.append]; [reflexivity|now rewrite IH].
Qed.

(** The loop goes on to the next node while [pos + 100] stays under
    [sizeof(out)], and [snprintf] keeps a whole item while it ends before
    [out[BUFSIZE - 2]]: when the items of all nodes but the last pass the
    guard and the last one is kept whole, nothing is cut off and no node is
    skipped. *)
Lemma list_loop_full (reg : registry) : forall pos out,
  pos = C.len out ->
  pos + C.len (listing (removelast reg)) + 100 < C.BUFSIZE ->
  pos + C.len (listing reg) <= C.BUFSIZE - 2 ->
  list_loop reg pos out = (out ++ listing reg)%string.
Proof.
  induction reg as [|n reg IH]; intros pos out Hpos Hguard Hfit;
    cbn [list_loop listing].
  - now rewrite append_empty.
  - cbn [listing] in Hfit. rewrite len_append in Hfit.
    pose proof (len_nonneg (list_item n)) as Hn.
    pose proof (len_nonneg (listing reg)) as Hr.
    pose proof (len_nonneg out) as Ho.
    rewrite substring_all by (unfold C.len in Hpos; lia).
    unfold C.snprintf_kept.
    rewrite (substring_all (list_item n))
      by (unfold C.len, C.BUFSIZE in *; lia).
    destruct reg as [|m reg].
    + cbn [list_loop listing]. rewrite append_empty.
      now destruct (C.BUFSIZE <=? pos + C.len (list_item n) + 100).
    + change (removelast (n :: m :: reg)) with (n :: removelast (m :: reg))
        in Hguard.
      cbn [listing] in Hguard. rewrite len_append in Hguard.
      pose proof (len_nonneg (listing (removelast (m :: reg)))) as Hl.
      assert ((C.BUFSIZE <=? pos + C.len (list_item n) + 100) = false) as ->.
      { apply Z.leb_gt. lia. }
      rewrite IH.
      * now rewrite append_assoc.
      * rewrite len_append. lia.
      * lia.
      * lia.
Qed.

Lemma remove_alloc_split reg nm : forall reg',
  remove_alloc reg nm = Some reg' ->
  exists before n after,
    reg = before ++ n :: after /\ reg' = before ++ after /\ name n = nm.
Proof.
  induction reg as [|m reg IH]; simpl; intros reg' H; [discriminate|].
  unfold C.streq in *. destruct (String.eqb (name m) nm) eqn:E.
  - injection H as <-. apply String.eqb_eq in E.
    now exists [], m, reg.
  - destruct (remove_alloc reg nm) as [r|]; [|discriminate].
    injection H as <-. destruct (IH r eq_refl) as [b [n [a [-> [-> Hn]]]]].
    now exists (m :: b), n, a.
Qed.

Lemma store_alloc_entries reg nm blk :
  map entry (store_alloc reg nm blk) = map entry reg.
Proof.
  induction reg as [|m reg IH]; simpl; [reflexivity|].
  destruct (C.streq (name m) nm); simpl; [reflexivity|now rewrite IH].
Qed.

(** The entries of the registry change in two ways only: an answered
    command leaves them as they were, puts one new node at the head, or
    takes one node out and keeps the order of the others. *)
Lemma handle_command_entries h reg line bytes reg' :
  handle_command h reg line = Replied bytes reg' ->
  map entry reg' = map entry reg
  \/ (exists n, reg' = n :: reg)
  \/ (exists before n after, reg = before ++ n :: after /\ reg' = before ++ after).
Proof.
  intros H. unfold handle_command in H. fold (tokens_of line) in H.
  destruct (tokens_of line) as [|tok args].
  { apply reply_inv in H. subst. now left. }
  destruct (C.streq tok "ALLOC").
  { destruct args as [|nm [|size_s args]];
      try (apply reply_inv in H; subst; now left).
    destruct (add_alloc h reg nm _) as [r| | | |] eqn:E; try discriminate H;
      try (apply reply_inv in H; subst; now left).
    apply reply_inv in H. subst reg'.
    apply add_alloc_added in E as [_ ->]. right. left. eauto. }
  destruct (C.streq tok "WRITE").
  { destruct args as [|nm [|offset_s [|b64 args]]];
      try (apply reply_inv in H; subst; now left).
    destruct (find_alloc reg nm) as [n|];
      [|apply reply_inv in H; subst; now left].
    destruct (base64_decode h b64) as [data|];
      [|apply reply_inv in H; subst; now left].
    destruct (size n <? _); [apply reply_inv in H; subst; now left|].
    destruct (memcpy_at (ptr n) _ data) as [blk|]; [|discriminate].
    apply reply_inv in H. subst reg'. left. apply store_alloc_entries. }
  destruct (C.streq tok "READ").
  { destruct args as [|nm [|offset_s [|len_s args]]];
      try (apply reply_inv in H; subst; now left).
    destruct (find_alloc reg nm) as [n|];
      [|apply reply_inv in H; subst; now left].
    destruct (size n <? _); [apply reply_inv in H; subst; now left|].
    destruct (base64_encode_at h (ptr n) _ _) as [b64| |];
      try discriminate H; apply reply_inv in H; subst; now left. }
  destruct (C.streq tok "FREE").
  { destruct args as [|nm args]; [apply reply_inv in H; subst; now left|].
    destruct (remove_alloc reg nm) as [r|] eqn:E;
      apply reply_inv in H; subst reg'; [|now left].
    right. right. apply remove_alloc_split in E as [b [n [a [-> [-> _]]]]].
    eauto. }
  destruct (C.streq tok "LIST"); [apply reply_inv in H; subst; now left|].
  destruct (C.streq tok "EXIT"); apply reply_inv in H; subst; now left.
Qed.

(** C6, as the code has it: in every state of the registry in which the
    [name:size;] texts of all nodes but the last one (the oldest entry)
    take fewer than 8092 characters together, and [OK ] with the
    [name:size;] texts of all nodes takes fewer than 8190 characters, LIST
    is answered [OK] followed by one space and by the text [name:size;] of
    every node of the registry, head first, each pair followed by its [;],
    and the registry is left alone: in these states LIST does not fail.
    The registry holds the live entries newest first: an answered command
    keeps its entries, or puts one node at the head, or takes one node
    out. *)
Theorem list_reply :
  (forall h reg line args,
     tokens_of line = "LIST" :: args ->
     C.len (listing (removelast reg)) + 100 < C.BUFSIZE ->
     C.len ("OK " ++ listing reg) < C.BUFSIZE - 2 ->
     handle_command h reg line
     = Replied ("OK " ++ listing reg ++ LFs)%string reg)
  /\ (forall h reg line bytes reg',
        handle_command h reg line = Replied bytes reg' ->
        map entry reg' = map entry reg
        \/ (exists n, reg' = n :: reg)
        \/ (exists before n after,
              reg = before ++ n :: after /\ reg' = before ++ after)).
Proof.
  split; [|exact handle_command_entries].
  intros h reg line args Htok Hguard Hfit.
  unfold handle_command. fold (tokens_of line). rewrite Htok.
  cbn [C.streq String.eqb Ascii.eqb Bool.eqb].
  rewrite len_append in Hfit. change (C.len "OK ") with 3 in Hfit.
  rewrite (list_loop_full reg 0 EmptyString eq_refl)
    by (unfold C.BUFSIZE in *; lia).
  change (EmptyString ++ listing reg)%string with (listing reg).
  unfold reply. rewrite send_line_short.
  - now rewrite append_assoc.
  - rewrite len_append. change (C.len "OK ") with 3. lia.
Qed.

Lemma list_reply_witness :
  handle_command plain_host
    [mkNode "foo" (fresh_block plain_host 10) 10; mkNode "bar" [] 4] "LIST"
  = Replied ("OK foo:10;bar:4;" ++ LFs)%string
      [mkNode "foo" (fresh_block plain_host 10) 10; mkNode "bar" [] 4].
Proof.
  destruct list_reply as [Hlist _].
  apply (Hlist plain_host
           [mkNode "foo" (fresh_block plain_host 10) 10; mkNode "bar" [] 4]
           "LIST" []);
    [reflexivity|vm_compute; reflexivity|vm_compute; reflexivity].
Defined.

(** C6, as the claim has it, fails three times.  Every pair is followed by
    a [;], the last one too, so the payload is not the pairs joined by [;].
    The loop stops once 8092 characters are passed: after [ALLOC b 1] and
    an ALLOC of a name of 8100 characters, LIST shows the long name and not
    the live entry [b].  And LIST can fail: after an ALLOC of a name of
    8186 characters the reply text has 8192 characters, [send_line] stores
    its newline at [buf[8192]], one past the end of [buf], and the session
    is lost with no reply to LIST. *)
Lemma list_reply_not_joined :
  (handle_command plain_host [mkNode "foo" [] 10] "LIST"
   = Replied ("OK foo:10;" ++ LFs)%string [mkNode "foo" [] 10]
   /\ ("OK " ++ joined_pairs [mkNode "foo" [] 10] ++ LFs)%string
      = ("OK foo:10" ++ LFs)%string)
  /\ (exists reg,
        session (fun _ => plain_host) (fun _ => plain_host) []
          ("ALLOC b 1" ++ LFs ++ "ALLOC " ++ long_name ++ " 1" ++ LFs
           ++ "LIST" ++ LFs)%string
        = ([("OK" ++ LFs)%string; ("OK" ++ LFs)%string;
            ("OK " ++ long_name ++ ":1;" ++ LFs)%string],
           Disconnected reg)
        /\ map entry reg = [(long_name, 1); ("b", 1)]
        /\ live reg "b" = true
        /\ ("OK " ++ long_name ++ ":1;" ++ LFs)%string
           <> ("OK " ++ joined_pairs reg ++ LFs)%string
        /\ ("OK " ++ long_name ++ ":1;" ++ LFs)%string
           <> ("OK " ++ listing reg ++ LFs)%string)
  /\ (handle_command plain_host [] ("ALLOC " ++ longer_name ++ " 1")%string
      = Replied ("OK" ++ LFs)%string
          [mkNode longer_name (fresh_block plain_host 1) 1]
      /\ C.len ("OK " ++ listing [mkNode longer_name (fresh_block plain_host 1) 1])
         = C.BUFSIZE
      /\ handle_command plain_host
           [mkNode longer_name (fresh_block plain_host 1) 1] "LIST"
         = Undefined
      /\ session (fun _ => plain_host) (fun _ => plain_host) []
           ("ALLOC " ++ longer_name ++ " 1" ++ LFs ++ "LIST" ++ LFs)%string
         = ([("OK" ++ LFs)%string], Crashed)).
Proof.
  split; [split; reflexivity|]. split.
  - eexists. split; [vm_compute; reflexivity|].
    split; [vm_compute; reflexivity|].
    split; [vm_compute; reflexivity|].
    split; intros H; apply (f_equal String.length) in H; vm_compute in H;
      discriminate.
  - split; [vm_compute; reflexivity|]. split; [vm_compute; reflexivity|].
    split; vm_compute; reflexivity.
Qed.

(** ** The codec *)

Lemma code_range (c : ascii) : 0 <= C.code c < 256.
Proof.
  unfold C.code. pose proof (N_ascii_bounded c) as H. lia.
Qed.

Lemma chr_code (c : ascii) : C.chr (C.code c) = c.
Proof.
  unfold C.chr, C.code. rewrite N2Z.id. apply ascii_N_embedding.
Qed.

(** Bits that do not overlap add up. *)
Lemma lor_disjoint (x lo k : Z) :
  0 <= k -> 0 <= x -> x mod 2 ^ k = 0 -> 0 <= lo < 2 ^ k ->
  Z.lor x lo = x + lo.
Proof.
  intros Hk Hx Hmod Hlo. rewrite <- Z.add_lor_land.
  assert (Z.land x lo = 0) as ->; [|lia].
  apply Z.bits_inj'. intros n Hn.
  rewrite Z.land_spec, Z.bits_0.
  destruct (Z.lt_ge_cases n k) as [Hlt|Hge].
  - assert (x = Z.shiftl (x / 2 ^ k) k) as ->.
    { rewrite Z.shiftl_mul_pow2 by lia.
      pose proof (Z.div_mod x (2 ^ k)) as D. lia. }
    now rewrite Z.shiftl_spec_low.
  - destruct (Z.eq_dec lo 0) as [->|Hnz].
    + now rewrite Z.bits_0, andb_false_r.
    + assert (Z.testbit lo n = false) as ->; [|apply andb_false_r].
      apply Z.bits_above_log2; [lia|].
      apply Z.lt_le_trans with k; [apply Z.log2_lt_pow2; lia|lia].
Qed.

Lemma b64val_b64char (i : Z) : 0 <= i < 64 -> b64val (b64char i) = i.
Proof.
  intros H. rewrite <- (Z2Nat.id i) by lia.
  assert (Z.to_nat i < 64)%nat as Hn by lia.
  generalize dependent (Z.to_nat i). clear. intros n Hn.
  do 64 (destruct n as [|n]; [reflexivity|]). lia.
Qed.

Lemma b64char_not_pad (i : Z) :
  0 <= i < 64 -> Ascii.eqb (b64char i) "="%char = false.
Proof.
  intros H. rewrite <- (Z2Nat.id i) by lia.
  assert (Z.to_nat i < 64)%nat as Hn by lia.
  generalize dependent (Z.to_nat i). clear. intros n Hn.
  do 64 (destruct n as [|n]; [reflexivity|]). lia.
Qed.

Ltac bits_to_arith :=
  repeat rewrite Z.shiftr_div_pow2 by lia;
  repeat rewrite Z.shiftl_mul_pow2 by lia;
  change (Z.land ?x 63) with (Z.land x (Z.ones 6));
  change (Z.land ?x 255) with (Z.land x (Z.ones 8));
  repeat rewrite Z.land_ones by lia.

(** The word [base64_encode] builds from three bytes. *)
Lemma encode_triple_value (a b c : Z) :
  0 <= a < 256 -> 0 <= b < 256 -> 0 <= c < 256 ->
  C.u32 (Z.lor (Z.lor (Z.shiftl a 16) (Z.shiftl b 8)) c)
  = a * 65536 + b * 256 + c.
Proof.
  intros Ha Hb Hc. rewrite !Z.shiftl_mul_pow2 by lia.
  change (2 ^ 16) with 65536. change (2 ^ 8) with 256.
  rewrite (lor_disjoint (a * 65536) (b * 256) 16) by
    (try lia; change (2 ^ 16) with 65536; try lia;
     apply Z.mod_mul; lia).
  rewrite (lor_disjoint (a * 65536 + b * 256) c 8) by
    (try lia; change (2 ^ 8) with 256; try lia;
     replace (a * 65536 + b * 256) with ((a * 256 + b) * 256) by lia;
     apply Z.mod_mul; lia).
  unfold C.u32. apply Z.mod_small. change (2 ^ 32) with 4294967296. lia.
Qed.

(** The word [base64_decode] builds from four values of six bits. *)
Lemma decode_quad_value (s0 s1 s2 s3 : Z) :
  0 <= s0 < 64 -> 0 <= s1 < 64 -> 0 <= s2 < 64 -> 0 <= s3 < 64 ->
  C.u32 (Z.lor (Z.lor (Z.lor (Z.shiftl s0 18) (Z.shiftl s1 12))
                      (Z.shiftl s2 6)) s3)
  = s0 * 262144 + s1 * 4096 + s2 * 64 + s3.
Proof.
  intros H0 H1 H2 H3. rewrite !Z.shiftl_mul_pow2 by lia.
  change (2 ^ 18) with 262144. change (2 ^ 12) with 4096.
  change (2 ^ 6) with 64.
  rewrite (lor_disjoint (s0 * 262144) (s1 * 4096) 18) by
    (try lia; change (2 ^ 18) with 262144; try lia; apply Z.mod_mul; lia).
  rewrite (lor_disjoint (s0 * 262144 + s1 * 4096) (s2 * 64) 12) by
    (try lia; change (2 ^ 12) with 4096; try lia;
     replace (s0 * 262144 + s1 * 4096) with ((s0 * 64 + s1) * 4096) by lia;
     apply Z.mod_mul; lia).
  rewrite (lor_disjoint (s0 * 262144 + s1 * 4096 + s2 * 64) s3 6) by
    (try lia; change (2 ^ 6) with 64; try lia;
     replace (s0 * 262144 + s1 * 4096 + s2 * 64)
       with ((s0 * 4096 + s1 * 64 + s2) * 64) by lia;
     apply Z.mod_mul; lia).
  unfold C.u32. apply Z.mod_small. change (2 ^ 32) with 4294967296. lia.
Qed.

Lemma sextet_range (t k : Z) : 0 <= k -> 0 <= Z.land (Z.shiftr t k) 63 < 64.
Proof.
  intros Hk. change 63 with (Z.ones 6). rewrite Z.land_ones by lia.
  apply Z.mod_pos_bound. reflexivity.
Qed.

(** What the decoder makes of the four characters the encoder wrote for
    three bytes. *)
Lemma decode_group_of_triple (d0 d1 d2 : ascii) :
  let triple :=
    C.u32 (Z.lor (Z.lor (Z.shiftl (C.code d0) 16) (Z.shiftl (C.code d1) 8))
                 (C.code d2)) in
  base64_decode_group
    (b64char (Z.land (Z.shiftr triple 18) 63))
    (b64char (Z.land (Z.shiftr triple 12) 63))
    (b64char (Z.land (Z.shiftr triple 6) 63))
    (b64char (Z.land triple 63))
  = Some [d0; d1; d2].
Proof.
  intros triple.
  pose proof (code_range d0) as H0. pose proof (code_range d1) as H1.
  pose proof (code_range d2) as H2.
  assert (triple = C.code d0 * 65536 + C.code d1 * 256 + C.code d2) as Ht
    by (now apply encode_triple_value).
  pose proof (sextet_range triple 18 ltac:(lia)) as R0.
  pose proof (sextet_range triple 12 ltac:(lia)) as R1.
  pose proof (sextet_range triple 6 ltac:(lia)) as R2.
  pose proof (sextet_range triple 0 ltac:(lia)) as R3.
  rewrite Z.shiftr_0_r in R3.
  unfold base64_decode_group.
  rewrite !b64val_b64char, !b64char_not_pad by assumption.
  set (s0 := Z.land (Z.shiftr triple 18) 63) in *.
  set (s1 := Z.land (Z.shiftr triple 12) 63) in *.
  set (s2 := Z.land (Z.shiftr triple 6) 63) in *.
  set (s3 := Z.land triple 63) in *.
  assert ((s0 <? 0) = false) as -> by (apply Z.ltb_ge; lia).
  assert ((s1 <? 0) = false) as -> by (apply Z.ltb_ge; lia).
  assert ((s2 <? -1) = false) as -> by (apply Z.ltb_ge; lia).
  assert ((s3 <? -1) = false) as -> by (apply Z.ltb_ge; lia).
  assert ((-1 <? s2) = true) as -> by (apply Z.ltb_lt; lia).
  assert ((-1 <? s3) = true) as -> by (apply Z.ltb_lt; lia).
  cbn [orb app].
  rewrite (decode_quad_value s0 s1 s2 s3) by assumption.
  assert (s0 * 262144 + s1 * 4096 + s2 * 64 + s3 = triple) as ->.
  { subst s0 s1 s2 s3. bits_to_arith.
    change (2 ^ 18) with 262144. change (2 ^ 12) with 4096.
    change (2 ^ 6) with 64.
    assert (0 <= triple < 16777216) by lia.
    clear - H. Z.div_mod_to_equations. lia. }
  rewrite Ht. bits_to_arith.
  change (2 ^ 16) with 65536. change (2 ^ 8) with 256.
  assert ((C.code d0 * 65536 + C.code d1 * 256 + C.code d2) / 65536 mod 256
          = C.code d0) as -> by (Z.div_mod_to_equations; lia).
  assert ((C.code d0 * 65536 + C.code d1 * 256 + C.code d2) / 256 mod 256
          = C.code d1) as -> by (Z.div_mod_to_equations; lia).
  assert ((C.code d0 * 65536 + C.code d1 * 256 + C.code d2) mod 256
          = C.code d2) as -> by (Z.div_mod_to_equations; lia).
  now rewrite !chr_code.
Qed.

(** A group that ends in [=] is refused, whatever comes before. *)
Lemma decode_group_pad (c0 c1 c2 : ascii) :
  base64_decode_group c0 c1 c2 "="%char = None.
Proof.
  unfold base64_decode_group. cbn [Ascii.eqb Bool.eqb].
  change (-2 <? -1) with true. now rewrite !orb_true_r.
Qed.

Lemma encode_chars_length : forall n data,
  List.length data = (3 * n)%nat ->
  String.length (base64_encode_chars data) = (4 * n)%nat.
Proof.
  induction n as [|n IH]; intros data H.
  - destruct data; [reflexivity|discriminate].
  - destruct data as [|d0 [|d1 [|d2 data]]]; cbn [List.length] in H; try lia.
    cbn [base64_encode_chars String.length].
    rewrite (IH data) by lia. lia.
Qed.

(** Without padding the decoder undoes the encoder. *)
Lemma decode_loop_encode_chars : forall n data,
  List.length data = (3 * n)%nat ->
  base64_decode_loop (base64_encode_chars data) = Some data.
Proof.
  induction n as [|n IH]; intros data H.
  - destruct data; [reflexivity|discriminate].
  - destruct data as [|d0 [|d1 [|d2 data]]]; cbn [List.length] in H; try lia.
    cbn [base64_encode_chars base64_decode_loop].
    rewrite decode_group_of_triple, (IH data) by lia. reflexivity.
Qed.

(** With padding the decoder refuses what the encoder wrote. *)
Lemma decode_loop_padded : forall n data,
  (List.length data = 3 * n + 1 \/ List.length data = 3 * n + 2)%nat ->
  base64_decode_loop (base64_encode_chars data) = None.
Proof.
  induction n as [|n IH]; intros data H.
  - destruct data as [|d0 [|d1 [|d2 data]]]; cbn [List.length] in H; try lia;
      cbn [base64_encode_chars base64_decode_loop];
      now rewrite decode_group_pad.
  - destruct data as [|d0 [|d1 [|d2 data]]]; cbn [List.length] in H; try lia.
    cbn [base64_encode_chars base64_decode_loop].
    rewrite (IH data) by lia.
    now destruct (base64_decode_group _ _ _ _).
Qed.

Lemma wrap_small (z : Z) : 0 <= z < 2 ^ 64 -> C.wrap z = z.
Proof. intros H. unfold C.wrap, C.SIZE_BITS. now apply Z.mod_small. Qed.

(** [base64_decode] on the encoder's output, for every host: the bytes
    come back when their number is a multiple of three and the host grants
    the output block, and the text is refused when the encoder had to
    pad. *)
Lemma decode_encode (h : host) (data : list ascii) (n : nat) :
  Z.of_nat (4 * n)%nat < 2 ^ 64 ->
  (List.length data = (3 * n)%nat ->
   malloc_ok h (Z.of_nat (3 * n)%nat) = true ->
   base64_decode h (base64_encode_chars data) = Some data)
  /\ (List.length data = (3 * n + 1)%nat
      \/ List.length data = (3 * n + 2)%nat ->
      base64_decode h (base64_encode_chars data) = None).
Proof.
  intros Hn. split.
  - intros Hlen Hm. unfold base64_decode, C.len.
    rewrite (encode_chars_length n data Hlen).
    rewrite wrap_small by lia.
    replace (Z.of_nat (4 * n)%nat) with (Z.of_nat n * 4) by lia.
    rewrite Z.mod_mul, Z.div_mul by lia. cbn [Z.eqb negb].
    rewrite wrap_small by lia.
    replace (Z.of_nat n * 3) with (Z.of_nat (3 * n)%nat) by lia.
    rewrite Hm. now apply (decode_loop_encode_chars n).
  - intros Hlen. unfold base64_decode.
    rewrite (decode_loop_padded n data Hlen).
    destruct (negb _); [reflexivity|]. now destruct (malloc_ok h _).
Qed.

(** ** Numbers on the line *)

Lemma digits_value_nonneg (s : string) : forall acc,
  0 <= acc -> 0 <= C.digits_value acc s.
Proof.
  induction s as [|c s IH]; intros acc H; cbn [C.digits_value]; [exact H|].
  destruct (C.isdigit c) eqn:E; [|exact H].
  apply IH. unfold C.isdigit in E. apply andb_prop in E as [E _].
  apply Z.leb_le in E. lia.
Qed.

Lemma strtoull_range (s : string) : 0 <= C.strtoull s < 2 ^ 64.
Proof.
  unfold C.strtoull.
  destruct (match C.skip_space s with
            | EmptyString => _ | String c rest => _ end) as [neg s2].
  pose proof (digits_value_nonneg s2 0 ltac:(lia)) as Hv.
  destruct (C.ULLONG_MAX <? C.digits_value 0 s2) eqn:E.
  - unfold C.ULLONG_MAX. lia.
  - apply Z.ltb_ge in E. unfold C.ULLONG_MAX in E.
    destruct neg; [apply Z.mod_pos_bound|]; lia.
Qed.

Lemma wrap_strtoull (s : string) : C.wrap (C.strtoull s) = C.strtoull s.
Proof. apply wrap_small, strtoull_range. Qed.

(** The request of [base64_encode] when nothing wraps. *)
Lemma encode_request_small (len : Z) :
  0 <= len < 2 ^ 62 -> encode_request len = (len + 2) / 3 * 4 + 1.
Proof.
  intros H. unfold encode_request.
  assert (0 <= (len + 2) / 3 < 2 ^ 61) by (Z.div_mod_to_equations; lia).
  rewrite (wrap_small (len + 2)) by lia.
  rewrite (wrap_small ((len + 2) / 3)) by lia.
  rewrite (wrap_small ((len + 2) / 3 * 4)) by lia.
  apply wrap_small. lia.
Qed.

(** [base64_encode] called on bytes that lie inside the block. *)
Lemma base64_encode_at_inside h blk offset len data :
  mem_read blk offset len = Some data ->
  base64_encode_at h blk offset len
  = if malloc_ok h (encode_request len)
    then Encoded (base64_encode_chars data)
    else EncodeNull.
Proof. intros H. unfold base64_encode_at. now rewrite H. Qed.

(** ** The bounds check when the sum does not wrap *)

(** READ past the end of an entry is answered [ERR out_of_bounds] and
    changes nothing, as long as [offset + len] stays below [2 ^ 64]. *)
Lemma read_out_of_bounds h reg line nm offset_s len_s rest n :
  tokens_of line = "READ" :: nm :: offset_s :: len_s :: rest ->
  find_alloc reg nm = Some n ->
  C.strtoull offset_s + C.strtoull len_s < 2 ^ 64 ->
  size n < C.strtoull offset_s + C.strtoull len_s ->
  handle_command h reg line = Replied ("ERR out_of_bounds" ++ LFs)%string reg.
Proof.
  intros Htok Hfind Hnowrap Hout.
  pose proof (strtoull_range offset_s). pose proof (strtoull_range len_s).
  unfold handle_command. fold (tokens_of line). rewrite Htok.
  cbn [C.streq String.eqb Ascii.eqb Bool.eqb]. rewrite Hfind.
  rewrite !wrap_strtoull, wrap_small by lia.
  apply Z.ltb_lt in Hout. rewrite Hout. now short_reply.
Qed.

(** WRITE past the end of an entry, likewise. *)
Lemma write_out_of_bounds h reg line nm offset_s b64 rest n data :
  tokens_of line = "WRITE" :: nm :: offset_s :: b64 :: rest ->
  find_alloc reg nm = Some n ->
  base64_decode h b64 = Some data ->
  C.strtoull offset_s + Z.of_nat (List.length data) < 2 ^ 64 ->
  size n < C.strtoull offset_s + Z.of_nat (List.length data) ->
  handle_command h reg line = Replied ("ERR out_of_bounds" ++ LFs)%string reg.
Proof.
  intros Htok Hfind Hdec Hnowrap Hout.
  pose proof (strtoull_range offset_s).
  unfold handle_command. fold (tokens_of line). rewrite Htok.
  cbn [C.streq String.eqb Ascii.eqb Bool.eqb]. rewrite Hfind, Hdec.
  rewrite wrap_strtoull, wrap_small by lia.
  apply Z.ltb_lt in Hout. rewrite Hout. now short_reply.
Qed.

(** ** WRITE with a payload of the wrong length *)

Lemma wrap_mod_4 (z : Z) : C.wrap z mod 4 = z mod 4.
Proof.
  unfold C.wrap, C.SIZE_BITS.
  apply Z.mod_mod_divide.
  exists (2 ^ 62). reflexivity.
Qed.

(** A payload whose length is not a multiple of four is answered
    [ERR bad_base64] and nothing is stored. *)
Lemma write_bad_length h reg line nm offset_s b64 rest :
  tokens_of line = "WRITE" :: nm :: offset_s :: b64 :: rest ->
  live reg nm = true ->
  C.len b64 mod 4 <> 0 ->
  handle_command h reg line = Replied ("ERR bad_base64" ++ LFs)%string reg.
Proof.
  intros Htok Hlive Hlen.
  unfold handle_command. fold (tokens_of line). rewrite Htok.
  cbn [C.streq String.eqb Ascii.eqb Bool.eqb].
  unfold live in Hlive. destruct (find_alloc reg nm); [|discriminate].
  unfold base64_decode. rewrite wrap_mod_4.
  apply Z.eqb_neq in Hlen. rewrite Hlen. cbn [negb]. now short_reply.
Qed.

(** ** A WRITE read back *)

Lemma memcpy_at_length blk offset data blk' :
  0 <= offset -> memcpy_at blk offset data = Some blk' ->
  List.length blk' = List.length blk.
Proof.
  intros Hoff. unfold memcpy_at.
  destruct (_ <=? _) eqn:E; [|discriminate]. apply Z.leb_le in E.
  intros [= <-]. rewrite !length_app, length_firstn, length_skipn. lia.
Qed.

Lemma mem_read_memcpy blk offset data blk' :
  0 <= offset -> memcpy_at blk offset data = Some blk' ->
  mem_read blk' offset (Z.of_nat (List.length data)) = Some data.
Proof.
  intros Hoff H. unfold mem_read.
  rewrite (memcpy_at_length blk offset data blk' Hoff H).
  unfold memcpy_at in H.
  destruct (_ <=? _) eqn:E; [|discriminate]. injection H as <-.
  f_equal. apply Z.leb_le in E.
  assert (List.length (firstn (Z.to_nat offset) blk) = Z.to_nat offset) as Hl
    by (apply firstn_length_le; lia).
  rewrite skipn_app, Hl, Nat.sub_diag, Nat2Z.id.
  rewrite skipn_all2 by lia. cbn [skipn app].
  rewrite firstn_app, Nat.sub_diag, firstn_all. cbn [firstn].
  apply app_nil_r.
Qed.

Lemma find_store_alloc reg nm blk n :
  find_alloc reg nm = Some n ->
  find_alloc (store_alloc reg nm blk) nm = Some (mkNode (name n) blk (size n)).
Proof.
  induction reg as [|m reg IH]; cbn [find_alloc store_alloc]; [discriminate|].
  destruct (C.streq (name m) nm) eqn:E.
  - intros [= ->]. cbn [find_alloc name]. now rewrite E.
  - intros H. cbn [find_alloc]. rewrite E. now apply IH.
Qed.

(** A WRITE of the encoding of [3 * k] bytes inside an entry is answered
    [OK], and a READ of the same range, sent next, returns that encoding,
    when the hosts grant the two scratch blocks and the reply fits the
    buffer of [send_line].  The block of the entry is at least as long as
    its size, as [add_alloc] makes it. *)
Lemma write_then_read h1 h2 reg nm n l_write l_read offset_s len_s data k
  rest1 rest2 :
  find_alloc reg nm = Some n ->
  size n <= Z.of_nat (List.length (ptr n)) ->
  size n < 2 ^ 64 ->
  tokens_of l_write
  = "WRITE" :: nm :: offset_s :: base64_encode_chars data :: rest1 ->
  tokens_of l_read = "READ" :: nm :: offset_s :: len_s :: rest2 ->
  List.length data = (3 * k)%nat ->
  C.strtoull len_s = Z.of_nat (List.length data) ->
  C.strtoull offset_s + Z.of_nat (List.length data) <= size n ->
  malloc_ok h1 (Z.of_nat (3 * k)%nat) = true ->
  malloc_ok h2 (Z.of_nat (4 * k)%nat + 1) = true ->
  Z.of_nat (4 * k)%nat + 3 < C.BUFSIZE - 2 ->
  exists reg1,
    handle_command h1 reg l_write = Replied ("OK" ++ LFs)%string reg1
    /\ handle_command h2 reg1 l_read
       = Replied ("OK " ++ base64_encode_chars data ++ LFs)%string reg1.
Proof.
  intros Hfind Hblk Hsize Hw Hr Hlen Hlen_s Hin Hm1 Hm2 Hfit.
  pose proof (strtoull_range offset_s) as Hoff.
  assert (Z.of_nat (4 * k)%nat < 2 ^ 64) as H4k by (unfold C.BUFSIZE in Hfit; lia).
  destruct (decode_encode h1 data k H4k) as [Hdec _].
  specialize (Hdec Hlen Hm1).
  destruct (memcpy_at (ptr n) (C.strtoull offset_s) data) as [blk|] eqn:Hcpy.
  2:{ unfold memcpy_at in Hcpy.
      destruct (_ <=? _) eqn:E; [discriminate|]. apply Z.leb_gt in E. lia. }
  exists (store_alloc reg nm blk). split.
  - unfold handle_command. fold (tokens_of l_write). rewrite Hw.
    cbn [C.streq String.eqb Ascii.eqb Bool.eqb]. rewrite Hfind, Hdec.
    rewrite wrap_strtoull, wrap_small by lia.
    assert ((size n <? C.strtoull offset_s + Z.of_nat (List.length data)) = false)
      as -> by (apply Z.ltb_ge; lia).
    rewrite Hcpy. now short_reply.
  - unfold handle_command. fold (tokens_of l_read). rewrite Hr.
    cbn [C.streq String.eqb Ascii.eqb Bool.eqb].
    rewrite (find_store_alloc reg nm blk n Hfind). cbn [size ptr].
    rewrite !wrap_strtoull, Hlen_s, wrap_small by lia.
    assert ((size n <? C.strtoull offset_s + Z.of_nat (List.length data)) = false)
      as -> by (apply Z.ltb_ge; lia).
    rewrite (base64_encode_at_inside _ _ _ _ data)
      by (apply (mem_read_memcpy (ptr n)); [lia|exact Hcpy]).
    rewrite Hlen.
    rewrite encode_request_small by (unfold C.BUFSIZE in Hfit; lia).
    replace ((Z.of_nat (3 * k)%nat + 2) / 3 * 4 + 1)
      with (Z.of_nat (4 * k)%nat + 1) by (Z.div_mod_to_equations; lia).
    rewrite Hm2. unfold reply. rewrite send_line_short.
    + now rewrite append_assoc.
    + rewrite len_append. change (C.len "OK ") with 3. unfold C.len.
      rewrite (encode_chars_length k data Hlen). lia.
Qed.

Example write_then_read_hel :
  exists reg1,
    handle_command plain_host
      [mkNode "foo" (fresh_block plain_host 10) 10] "WRITE foo 2 aGVs"
    = Replied ("OK" ++ LFs)%string reg1
    /\ handle_command plain_host reg1 "READ foo 2 3"
       = Replied ("OK aGVs" ++ LFs)%string reg1.
Proof.
  apply (write_then_read plain_host plain_host
           [mkNode "foo" (fresh_block plain_host 10) 10] "foo"
           (mkNode "foo" (fresh_block plain_host 10) 10)
           "WRITE foo 2 aGVs" "READ foo 2 3" "2" "3"
           (list_ascii_of_string "hel") 1 [] []);
    try reflexivity; vm_compute; discriminate.
Qed.

(** ** Replies longer than the buffer of [send_line] *)

(** On an entry of 6144 bytes a READ of 6138 bytes is answered in full
    (3 + 8184 characters and the newline); a READ of 6141 bytes is answered
    by 8189 characters of the text, a NUL, one byte left on the stack and
    the newline; a READ of 6144 bytes makes [send_line] store its newline
    outside [buf]. *)
Example long_read_reply :
  let reg := [mkNode "foo" (fresh_block plain_host 6144) 6144] in
  option_map C.len (reply_bytes (handle_command plain_host reg "READ foo 0 6138"))
  = Some 8188
  /\ option_map (fun s => (C.len s, String.get (Z.to_nat 8189) s,
                           String.get (Z.to_nat 8190) s))
       (reply_bytes (handle_command plain_host reg "READ foo 0 6141"))
     = Some (8192, Some C.NUL, Some (stack_garbage plain_host))
  /\ handle_command plain_host reg "READ foo 0 6144" = Undefined.
Proof. cbv zeta. repeat split; vm_compute; reflexivity. Qed.

(** ** The codec on padded text *)

(** C4 at the five bytes of [hello]: the encoder ends its output in one
    [=], and the decoder refuses that output.  In [base64_decode] a [=] in
    the third or fourth place of a group is given the value -2, and the test
    that follows refuses every value below -1. *)
Theorem decode_refuses_padding :
  base64_encode plain_host (list_ascii_of_string "hello") = Some "aGVsbG8="
  /\ base64_decode plain_host "aGVsbG8=" = None
  /\ base64_decode_group "b" "G" "8" "=" = None
  /\ base64_encode plain_host (list_ascii_of_string "hell") = Some "aGVsbA=="
  /\ base64_decode plain_host "aGVsbA==" = None.
Proof. repeat split. Qed.

(** C2 at [WRITE foo 0 aG!!] on an entry of ten bytes: the two [!] are
    outside the alphabet, yet the line is answered [OK] and the first byte
    of the buffer is overwritten.  [b64val] gives -1 for them, which the
    test [v < -1] lets through. *)
Theorem write_accepts_bad_base64 :
  b64val "!" = -1
  /\ base64_decode plain_host "aG!!" = Some ["h"%char]
  /\ handle_command plain_host
       [mkNode "foo" (fresh_block plain_host 10) 10] "WRITE foo 0 aG!!"
     = Replied ("OK" ++ LFs)%string
         [mkNode "foo" (list_ascii_of_string "hxxxxxxxxx") 10].
Proof. repeat split. Qed.

(** C3 at the scenario of the specification: the WRITE of [aGVsbG8=] is
    answered [ERR bad_base64], and the READ that follows returns the five
    bytes the block held when it was allocated. *)
Theorem scenario_write_refused :
  session (fun _ => plain_host) (fun _ => plain_host) []
    ("ALLOC foo 10" ++ LFs ++ "WRITE foo 0 aGVsbG8=" ++ LFs
     ++ "READ foo 0 5" ++ LFs ++ "FREE foo" ++ LFs
     ++ "READ foo 0 5" ++ LFs)%string
  = ([("OK" ++ LFs)%string; ("ERR bad_base64" ++ LFs)%string;
      ("OK eHh4eHg=" ++ LFs)%string; ("OK" ++ LFs)%string;
      ("ERR not_found" ++ LFs)%string],
     Disconnected []).
Proof. vm_compute. reflexivity. Qed.

(** ** The bounds check *)

(** C1 at offset [2 ^ 64 - 1] on an entry of ten bytes: the sum
    [offset + len] wraps to a small number, the test
    [offset + len > n->size] passes, and neither READ nor WRITE answers
    [ERR out_of_bounds]; both go on to address memory before the block. *)
Theorem bounds_check_wraps :
  C.strtoull "18446744073709551615" = 2 ^ 64 - 1
  /\ C.wrap (C.strtoull "18446744073709551615" + 1) = 0
  /\ handle_command plain_host
       [mkNode "foo" (fresh_block plain_host 10) 10]
       "READ foo 18446744073709551615 1"
     = Undefined
  /\ base64_decode plain_host "AAAA"
     = Some [C.NUL; C.NUL; C.NUL]
  /\ handle_command plain_host
       [mkNode "foo" (fresh_block plain_host 10) 10]
       "WRITE foo 18446744073709551615 AAAA"
     = Undefined.
Proof. repeat split. Qed.

(** * Further properties of the server *)

(** ** Tokens *)

Lemma strtok_from_run (t : string) : forall cur rest,
  all_chars (fun c => negb (Ascii.eqb c C.SP)) t = true ->
  C.strtok_from cur (t ++ rest)
  = C.strtok_from (rev (list_ascii_of_string t) ++ cur) rest.
Proof.
  induction t as [|c t IH]; intros cur rest H;
    cbn [String.append list_ascii_of_string rev app]; [reflexivity|].
  cbn [all_chars] in H. apply andb_prop in H as [Hc Ht].
  apply negb_true_iff in Hc. cbn [C.strtok_from]. rewrite Hc.
  rewrite (IH (c :: cur) rest Ht). now rewrite <- app_assoc.
Qed.

Lemma all_chars_and p q (s : string) :
  all_chars (fun c => p c && q c) s = all_chars p s && all_chars q s.
Proof.
  induction s as [|c s IH]; cbn [all_chars]; [reflexivity|].
  rewrite IH. destruct (p c), (q c), (all_chars p s); reflexivity.
Qed.

Lemma all_chars_append p (a b : string) :
  all_chars p (a ++ b) = all_chars p a && all_chars p b.
Proof.
  induction a as [|c a IH]; cbn [String.append all_chars]; [reflexivity|].
  now rewrite IH, andb_assoc.
Qed.

Lemma is_token_parts (t : string) :
  is_token t = true ->
  t <> EmptyString
  /\ all_chars (fun c => negb (Ascii.eqb c C.SP)) t = true
  /\ no_nul t = true.
Proof.
  unfold is_token, no_nul. rewrite all_chars_and. intros H.
  apply andb_prop in H as [H1 H2]. apply andb_prop in H2 as [H2 H3].
  apply negb_true_iff, String.eqb_neq in H1. now repeat split.
Qed.

Lemma words_no_nul (toks : list string) :
  Forall (fun t => is_token t = true) toks ->
  no_nul (String.concat " " toks) = true.
Proof.
  induction 1 as [|t toks Ht _ IH]; [reflexivity|].
  apply is_token_parts in Ht as [_ [_ Ht]].
  cbn [String.concat]. destruct toks as [|t' toks]; [exact Ht|].
  unfold no_nul in *. rewrite !all_chars_append, Ht, IH. reflexivity.
Qed.

Lemma strtok_from_space cur rest :
  cur <> [] ->
  C.strtok_from cur (String C.SP rest)
  = string_of_list_ascii (rev cur) :: C.strtok_from [] rest.
Proof. destruct cur; [now intros []|reflexivity]. Qed.

Lemma strtok_from_end cur :
  cur <> [] -> C.strtok_from cur EmptyString = [string_of_list_ascii (rev cur)].
Proof. destruct cur; [now intros []|reflexivity]. Qed.

Lemma strtok_from_words (toks : list string) :
  Forall (fun t => is_token t = true) toks ->
  C.strtok_from [] (String.concat " " toks) = toks.
Proof.
  induction 1 as [|t toks Ht _ IH]; [reflexivity|].
  apply is_token_parts in Ht as [Hne [Hsp _]].
  assert (string_of_list_ascii (rev (rev (list_ascii_of_string t))) = t) as Hrr
    by (rewrite rev_involutive; apply string_of_list_ascii_of_string).
  assert (rev (list_ascii_of_string t) <> []) as Hcur.
  { intros E. rewrite E in Hrr. cbn in Hrr. now subst t. }
  cbn [String.concat]. destruct toks as [|t' toks].
  - rewrite <- (append_empty t) at 1.
    rewrite (strtok_from_run t [] EmptyString Hsp), app_nil_r.
    now rewrite (strtok_from_end _ Hcur), Hrr.
  - rewrite (strtok_from_run t [] _ Hsp), app_nil_r.
    change (" " ++ String.concat " " (t' :: toks))%string
      with (String C.SP (String.concat " " (t' :: toks))).
    now rewrite (strtok_from_space _ _ Hcur), Hrr, IH.
Qed.

(** X1: tokens written one after the other with a single space between them
    are the tokens [handle_command] reads back, in order; a token is any
    non-empty text without a space or a NUL. *)
Theorem tokens_of_words (toks : list string) :
  Forall (fun t => is_token t = true) toks ->
  tokens_of (String.concat " " toks) = toks.
Proof.
  intros H. unfold tokens_of, C.strdup, C.strtok_all.
  rewrite (c_str_fixed _ (words_no_nul toks H)).
  now apply strtok_from_words.
Qed.

Lemma tokens_of_words_witness :
  tokens_of (String.concat " " ["WRITE"; "a;b"; "-12"; "aGk="])
  = ["WRITE"; "a;b"; "-12"; "aGk="].
Proof. apply tokens_of_words. repeat constructor. Defined.

(** ** Error replies *)

Ltac on_tokens line Htok :=
  unfold handle_command; fold (tokens_of line); rewrite Htok.

(** X2: ALLOC, WRITE, READ and FREE with fewer arguments than they need are
    answered [ERR <command> usage] before anything else is looked at, and
    the registry is left as it was. *)
Theorem usage_errors (h : host) (reg : registry) (line cmd : string)
  (args : list string) (n : nat) :
  tokens_of line = cmd :: args ->
  In (cmd, n) arities ->
  (List.length args < n)%nat ->
  handle_command h reg line
  = Replied ("ERR " ++ cmd ++ " usage" ++ LFs)%string reg.
Proof.
  intros Htok Hin Hlen. on_tokens line Htok.
  unfold arities in Hin. cbn [In] in Hin.
  destruct Hin as [E|[E|[E|[E|[]]]]]; injection E as <- <-;
    cbn [C.streq String.eqb Ascii.eqb Bool.eqb andb];
    repeat (destruct args as [|? args]; cbn [List.length] in Hlen; try lia);
    now short_reply.
Qed.

Lemma usage_errors_witness :
  handle_command starved_host [mkNode "foo" ["a"%char] 1] "WRITE foo 0"
  = Replied ("ERR WRITE usage" ++ LFs)%string [mkNode "foo" ["a"%char] 1].
Proof.
  apply (usage_errors starved_host [mkNode "foo" ["a"%char] 1]
           "WRITE foo 0" "WRITE" ["foo"; "0"] 3).
  - reflexivity.
  - right. now left.
  - cbn [List.length]. lia.
Defined.

Lemma streq_other (tok cmd : string) : tok <> cmd -> C.streq tok cmd = false.
Proof. intros H. now apply String.eqb_neq. Qed.

(** X3: a line whose first token is none of the six command names, compared
    byte for byte, is answered [ERR unknown_command] and changes nothing. *)
Theorem unknown_command_reply (h : host) (reg : registry) (line tok : string)
  (args : list string) :
  tokens_of line = tok :: args ->
  ~ In tok commands ->
  handle_command h reg line
  = Replied ("ERR unknown_command" ++ LFs)%string reg.
Proof.
  intros Htok Hnot. on_tokens line Htok.
  unfold commands in Hnot. cbn [In] in Hnot.
  rewrite !streq_other by (intros E; apply Hnot; rewrite E; tauto).
  now short_reply.
Qed.

Lemma unknown_command_reply_witness :
  handle_command plain_host [] "alloc foo 10"
  = Replied ("ERR unknown_command" ++ LFs)%string [].
Proof.
  apply (unknown_command_reply plain_host [] "alloc foo 10" "alloc" ["foo"; "10"]).
  - reflexivity.
  - unfold commands. cbn [In].
    intros [E|[E|[E|[E|[E|[E|[]]]]]]]; discriminate E.
Defined.

(** X4: WRITE, READ and FREE on a name that has no entry are answered
    [ERR not_found] and change nothing; for WRITE and READ this comes
    before the offset, the length and the payload are looked at. *)
Theorem not_found_reply (h : host) (reg : registry) (line cmd nm : string)
  (args : list string) :
  tokens_of line = cmd :: nm :: args ->
  find_alloc reg nm = None ->
  cmd = "FREE"
  \/ ((cmd = "WRITE" \/ cmd = "READ") /\ (2 <= List.length args)%nat) ->
  handle_command h reg line = Replied ("ERR not_found" ++ LFs)%string reg.
Proof.
  intros Htok Hfind Hcmd. on_tokens line Htok.
  destruct Hcmd as [->|[[->| ->] Hargs]];
    cbn [C.streq String.eqb Ascii.eqb Bool.eqb andb].
  - rewrite (remove_alloc_absent reg nm Hfind). now short_reply.
  - destruct args as [|a1 [|a2 args]]; cbn [List.length] in Hargs; try lia.
    rewrite Hfind. now short_reply.
  - destruct args as [|a1 [|a2 args]]; cbn [List.length] in Hargs; try lia.
    rewrite Hfind. now short_reply.
Qed.

Lemma not_found_reply_witness :
  handle_command plain_host [mkNode "foo" ["a"%char] 1] "WRITE bar x ???"
  = Replied ("ERR not_found" ++ LFs)%string [mkNode "foo" ["a"%char] 1].
Proof.
  apply (not_found_reply plain_host [mkNode "foo" ["a"%char] 1]
           "WRITE bar x ???" "WRITE" "bar" ["x"; "???"]).
  - reflexivity.
  - reflexivity.
  - right. split; [now left|]. cbn [List.length]. lia.
Defined.

Lemma reply_bytes_short h text reg bytes reg' :
  C.len text < C.BUFSIZE - 2 ->
  reply h text reg = Replied bytes reg' ->
  bytes = (text ++ LFs)%string /\ reg' = reg.
Proof.
  intros Hlen. unfold reply. rewrite (send_line_short h text Hlen).
  now intros [= <- <-].
Qed.

(** X5: the registry changes only under the reply [OK] alone: after any
    line answered otherwise (an [ERR] line, the payload of READ or LIST,
    [OK bye]) the registry, block contents included, is as it was. *)
Theorem registry_changes_only_on_ok (h : host) (reg reg' : registry)
  (line bytes : string) :
  handle_command h reg line = Replied bytes reg' ->
  bytes <> ("OK" ++ LFs)%string ->
  reg' = reg.
Proof.
  intros H Hnot. unfold handle_command in H. fold (tokens_of line) in H.
  destruct (tokens_of line) as [|tok args];
    [now apply reply_inv in H|].
  destruct (C.streq tok "ALLOC").
  { destruct args as [|nm [|size_s args]];
      try (now apply reply_inv in H).
    destruct (add_alloc h reg nm _) as [r| | | |]; try discriminate H;
      try (now apply reply_inv in H).
    apply reply_bytes_short in H as [-> _]; [now elim Hnot|].
    vm_compute; reflexivity. }
  destruct (C.streq tok "WRITE").
  { destruct args as [|nm [|offset_s [|b64 args]]];
      try (now apply reply_inv in H).
    destruct (find_alloc reg nm) as [n|]; [|now apply reply_inv in H].
    destruct (base64_decode h b64) as [data|]; [|now apply reply_inv in H].
    destruct (size n <? _); [now apply reply_inv in H|].
    destruct (memcpy_at (ptr n) _ data) as [blk|]; [|discriminate].
    apply reply_bytes_short in H as [-> _]; [now elim Hnot|].
    vm_compute; reflexivity. }
  destruct (C.streq tok "READ").
  { destruct args as [|nm [|offset_s [|len_s args]]];
      try (now apply reply_inv in H).
    destruct (find_alloc reg nm) as [n|]; [|now apply reply_inv in H].
    destruct (size n <? _); [now apply reply_inv in H|].
    destruct (base64_encode_at h (ptr n) _ _) as [b64| |];
      try discriminate H; now apply reply_inv in H. }
  destruct (C.streq tok "FREE").
  { destruct args as [|nm args]; [now apply reply_inv in H|].
    destruct (remove_alloc reg nm) as [r|]; [|now apply reply_inv in H].
    apply reply_bytes_short in H as [-> _]; [now elim Hnot|].
    vm_compute; reflexivity. }
  destruct (C.streq tok "LIST"); [now apply reply_inv in H|].
  destruct (C.streq tok "EXIT"); now apply reply_inv in H.
Qed.

Lemma registry_changes_only_on_ok_witness :
  [mkNode "foo" ["a"%char] 1] = [mkNode "foo" ["a"%char] 1].
Proof.
  apply (registry_changes_only_on_ok plain_host
           [mkNode "foo" ["a"%char] 1] [mkNode "foo" ["a"%char] 1]
           "READ foo 0 1" ("OK YQ==" ++ LFs)%string).
  - reflexivity.
  - discriminate.
Defined.





(** ** Blocks *)

Lemma block_ok_spec (n : AllocNode) :
  block_ok n = true <->
  0 <= size n < 2 ^ 64
  /\ Z.of_nat (List.length (ptr n)) = alloc_request (size n).
Proof.
  unfold block_ok. rewrite !andb_true_iff, Z.leb_le, Z.ltb_lt, Z.eqb_eq. tauto.
Qed.

Lemma alloc_request_bounds (sz : Z) :
  0 <= sz -> sz <= alloc_request sz /\ 0 < alloc_request sz.
Proof.
  intros H. unfold alloc_request. destruct (sz =? 0) eqn:E.
  - apply Z.eqb_eq in E. lia.
  - apply Z.eqb_neq in E. lia.
Qed.

Lemma wrap_range (z : Z) : 0 <= C.wrap z < 2 ^ 64.
Proof. unfold C.wrap, C.SIZE_BITS. apply Z.mod_pos_bound. reflexivity. Qed.

Lemma blocks_ok_find reg nm n :
  blocks_ok reg -> find_alloc reg nm = Some n -> block_ok n = true.
Proof.
  unfold blocks_ok. induction reg as [|m reg IH]; cbn [find_alloc forallb];
    [discriminate|].
  intros H. apply andb_prop in H as [Hm Hreg].
  destruct (C.streq (name m) nm); [now intros [= <-]|now apply IH].
Qed.

Lemma blocks_ok_store reg nm blk n :
  blocks_ok reg -> find_alloc reg nm = Some n ->
  List.length blk = List.length (ptr n) ->
  blocks_ok (store_alloc reg nm blk).
Proof.
  unfold blocks_ok.
  induction reg as [|m reg IH]; cbn [find_alloc store_alloc forallb];
    [discriminate|].
  intros H Hf Hlen. apply andb_prop in H as [Hm Hreg].
  destruct (C.streq (name m) nm).
  - injection Hf as <-. cbn [forallb]. rewrite Hreg, andb_true_r.
    unfold block_ok in *. cbn [size ptr]. now rewrite Hlen.
  - cbn [forallb]. rewrite Hm. now apply IH.
Qed.

Lemma blocks_ok_remove reg nm : forall reg',
  blocks_ok reg -> remove_alloc reg nm = Some reg' -> blocks_ok reg'.
Proof.
  unfold blocks_ok.
  induction reg as [|m reg IH]; cbn [remove_alloc forallb]; intros reg' H Hr;
    [discriminate|].
  apply andb_prop in H as [Hm Hreg].
  destruct (C.streq (name m) nm); [now injection Hr as <-|].
  destruct (remove_alloc reg nm) as [r|]; [|discriminate].
  injection Hr as <-. cbn [forallb]. rewrite Hm. now apply IH.
Qed.

(** X7: in the empty registry, and after every answered command, each
    entry has a size below [2 ^ 64] and a block of exactly
    [size ? size : 1] bytes: no command resizes a block or records a size
    its block does not cover. *)
Theorem blocks_cover_sizes :
  blocks_ok []
  /\ forall h reg line bytes reg',
       blocks_ok reg ->
       handle_command h reg line = Replied bytes reg' ->
       blocks_ok reg'.
Proof.
  split; [reflexivity|].
  intros h reg line bytes reg' Hinv H.
  unfold handle_command in H. fold (tokens_of line) in H.
  destruct (tokens_of line) as [|tok args].
  { apply reply_inv in H. now subst. }
  destruct (C.streq tok "ALLOC").
  { destruct args as [|nm [|size_s args]];
      try (apply reply_inv in H; now subst).
    destruct (add_alloc h reg nm _) as [r| | | |] eqn:E; try discriminate H;
      try (apply reply_inv in H; now subst).
    apply reply_inv in H. subst reg'.
    apply add_alloc_added in E as [_ ->].
    unfold blocks_ok in *. cbn [forallb]. rewrite Hinv, andb_true_r.
    apply block_ok_spec. cbn [size ptr].
    pose proof (wrap_range (C.strtoull size_s)) as Hw.
    split; [exact Hw|]. rewrite fresh_block_length.
    pose proof (alloc_request_bounds _ (proj1 Hw)). lia. }
  destruct (C.streq tok "WRITE").
  { destruct args as [|nm [|offset_s [|b64 args]]];
      try (apply reply_inv in H; now subst).
    destruct (find_alloc reg nm) as [n|] eqn:Hf;
      [|apply reply_inv in H; now subst].
    destruct (base64_decode h b64) as [data|];
      [|apply reply_inv in H; now subst].
    destruct (size n <? _); [apply reply_inv in H; now subst|].
    destruct (memcpy_at (ptr n) _ data) as [blk|] eqn:Hc; [|discriminate].
    apply reply_inv in H. subst reg'.
    apply (blocks_ok_store reg nm blk n Hinv Hf).
    apply (memcpy_at_length _ _ _ _ (proj1 (wrap_range _)) Hc). }
  destruct (C.streq tok "READ").
  { destruct args as [|nm [|offset_s [|len_s args]]];
      try (apply reply_inv in H; now subst).
    destruct (find_alloc reg nm) as [n|];
      [|apply reply_inv in H; now subst].
    destruct (size n <? _); [apply reply_inv in H; now subst|].
    destruct (base64_encode_at h (ptr n) _ _) as [b64| |];
      try discriminate H; apply reply_inv in H; now subst. }
  destruct (C.streq tok "FREE").
  { destruct args as [|nm args]; [apply reply_inv in H; now subst|].
    destruct (remove_alloc reg nm) as [r|] eqn:E;
      apply reply_inv in H; subst reg'; [|exact Hinv].
    now apply (blocks_ok_remove reg nm). }
  destruct (C.streq tok "LIST"); [apply reply_inv in H; now subst|].
  destruct (C.streq tok "EXIT"); apply reply_inv in H; now subst.
Qed.

Lemma blocks_cover_sizes_witness :
  blocks_ok [mkNode "foo" (fresh_block plain_host 1) 0].
Proof.
  destruct blocks_cover_sizes as [H0 Hstep].
  apply (Hstep plain_host [] "ALLOC foo 0" ("OK" ++ LFs)%string);
    [exact H0|reflexivity].
Defined.

(** The length of the encoder's output is the [out_len] it computes. *)
Lemma encode_chars_len : forall k data,
  (List.length data < 3 * k)%nat ->
  C.len (base64_encode_chars data)
  = (Z.of_nat (List.length data) + 2) / 3 * 4.
Proof.
  unfold C.len.
  induction k as [|k IH]; intros data H; [lia|].
  destruct data as [|d0 [|d1 [|d2 data]]]; try reflexivity.
  cbn [base64_encode_chars String.length List.length] in *.
  specialize (IH data ltac:(lia)).
  replace (Z.of_nat (S (S (S (List.length data)))) + 2)
    with ((Z.of_nat (List.length data) + 2) + 1 * 3) by lia.
  rewrite Z.div_add by lia. lia.
Qed.

Lemma decode_group_length c0 c1 c2 c3 bytes :
  base64_decode_group c0 c1 c2 c3 = Some bytes ->
  (1 <= List.length bytes <= 3)%nat.
Proof.
  intros H.
  assert (match base64_decode_group c0 c1 c2 c3 with
          | Some b => (1 <= List.length b <= 3)%nat
          | None => True
          end) as G.
  { clear H. unfold base64_decode_group. destruct (_ || _); [exact I|].
    cbn [List.length]. rewrite length_app.
    destruct (-1 <? _), (-1 <? _); cbn [List.length]; lia. }
  now rewrite H in G.
Qed.

(** The decoder stores at least one and at most three bytes for every four
    characters it reads. *)
Lemma decode_loop_length : forall k s out,
  (String.length s < 4 * k)%nat ->
  base64_decode_loop s = Some out ->
  Z.of_nat (String.length s) = 4 * (Z.of_nat (String.length s) / 4)
  /\ Z.of_nat (String.length s) / 4 <= Z.of_nat (List.length out)
     <= Z.of_nat (String.length s) / 4 * 3.
Proof.
  induction k as [|k IH]; intros s out Hk H; [lia|].
  destruct s as [|c0 [|c1 [|c2 [|c3 s]]]]; cbn [base64_decode_loop] in H;
    try discriminate.
  - injection H as <-. cbn [String.length List.length]. now vm_compute.
  - destruct (base64_decode_group c0 c1 c2 c3) as [bytes|] eqn:G;
      [|discriminate].
    destruct (base64_decode_loop s) as [out'|] eqn:L; [|discriminate].
    injection H as <-. cbn [String.length] in *.
    destruct (IH s out' ltac:(lia) L) as [Hm Hb].
    apply decode_group_length in G. rewrite length_app.
    replace (Z.of_nat (S (S (S (S (String.length s))))))
      with (Z.of_nat (String.length s) + 1 * 4) by lia.
    rewrite Z.div_add by lia. lia.
Qed.

(** ** Accesses that stay inside the block *)

Lemma send_line_defined h text :
  C.len text < C.BUFSIZE -> exists bytes, send_line h text = Some bytes.
Proof.
  intros H. unfold send_line.
  destruct (INT_MAX <? C.len text); [eauto|].
  destruct (C.len text <? C.BUFSIZE - 2) eqn:E3; [eauto|].
  destruct (C.len text =? C.BUFSIZE - 2) eqn:E1; [eauto|].
  destruct (C.len text =? C.BUFSIZE - 1) eqn:E2; [eauto|].
  apply Z.eqb_neq in E1, E2. apply Z.ltb_ge in E3. lia.
Qed.

Lemma mem_read_length blk offset len data :
  0 <= offset -> 0 <= len ->
  mem_read blk offset len = Some data ->
  Z.of_nat (List.length data) = len.
Proof.
  intros Ho Hl. unfold mem_read.
  destruct (_ <=? _) eqn:E; [|discriminate]. apply Z.leb_le in E.
  intros [= <-]. rewrite length_firstn, length_skipn. lia.
Qed.

(** X8: in a registry whose blocks cover their sizes, a WRITE whose
    [offset + data_len] stays below [2 ^ 64] is always answered: when the
    bounds check lets it through, [memcpy] stays inside the block. *)
Theorem write_without_wrap_is_answered (h : host) (reg : registry)
  (line nm offset_s b64 : string) (rest : list string) :
  blocks_ok reg ->
  tokens_of line = "WRITE" :: nm :: offset_s :: b64 :: rest ->
  (forall data, base64_decode h b64 = Some data ->
                C.strtoull offset_s + Z.of_nat (List.length data) < 2 ^ 64) ->
  exists bytes reg', handle_command h reg line = Replied bytes reg'.
Proof.
  intros Hinv Htok Hnowrap. on_tokens line Htok.
  cbn [C.streq String.eqb Ascii.eqb Bool.eqb andb].
  destruct (find_alloc reg nm) as [n|] eqn:Hf;
    [|eexists _, _; now short_reply].
  destruct (base64_decode h b64) as [data|];
    [|eexists _, _; now short_reply].
  specialize (Hnowrap data eq_refl).
  pose proof (strtoull_range offset_s) as Ho.
  rewrite wrap_strtoull, wrap_small by lia.
  destruct (size n <? _) eqn:E; [eexists _, _; now short_reply|].
  apply Z.ltb_ge in E.
  apply (blocks_ok_find reg nm n Hinv), block_ok_spec in Hf as [Hs Hb].
  pose proof (alloc_request_bounds _ (proj1 Hs)) as [Hreq _].
  unfold memcpy_at.
  assert ((C.strtoull offset_s + Z.of_nat (List.length data)
           <=? Z.of_nat (List.length (ptr n))) = true) as ->
    by (apply Z.leb_le; lia).
  eexists _, _. now short_reply.
Qed.

Lemma write_without_wrap_is_answered_witness :
  exists bytes reg',
    handle_command plain_host
      [mkNode "foo" (fresh_block plain_host 1) 0]
      "WRITE foo 1 AAAA"
    = Replied bytes reg'.
Proof.
  apply (write_without_wrap_is_answered plain_host
           [mkNode "foo" (fresh_block plain_host 1) 0]
           "WRITE foo 1 AAAA" "foo" "1" "AAAA" []).
  - reflexivity.
  - reflexivity.
  - intros data H. vm_compute in H. injection H as <-. reflexivity.
Defined.

(** X9: in a registry whose blocks cover their sizes, a READ of at most
    6141 bytes whose [offset + len] stays below [2 ^ 64] is always
    answered: the bytes encoded lie inside the block and the reply is no
    longer than [send_line]'s buffer. *)
Theorem read_without_wrap_is_answered (h : host) (reg : registry)
  (line nm offset_s len_s : string) (rest : list string) :
  blocks_ok reg ->
  tokens_of line = "READ" :: nm :: offset_s :: len_s :: rest ->
  C.strtoull offset_s + C.strtoull len_s < 2 ^ 64 ->
  C.strtoull len_s <= 6141 ->
  exists bytes, handle_command h reg line = Replied bytes reg.
Proof.
  intros Hinv Htok Hnowrap Hlen. on_tokens line Htok.
  cbn [C.streq String.eqb Ascii.eqb Bool.eqb andb].
  destruct (find_alloc reg nm) as [n|] eqn:Hf;
    [|eexists; now short_reply].
  pose proof (strtoull_range offset_s) as Ho.
  pose proof (strtoull_range len_s) as Hl.
  rewrite !wrap_strtoull, wrap_small by lia.
  destruct (size n <? _) eqn:E; [eexists; now short_reply|].
  apply Z.ltb_ge in E.
  apply (blocks_ok_find reg nm n Hinv), block_ok_spec in Hf as [Hs Hb].
  pose proof (alloc_request_bounds _ (proj1 Hs)) as [Hreq _].
  destruct (mem_read (ptr n) (C.strtoull offset_s) (C.strtoull len_s))
    as [data|] eqn:Hread.
  2:{ unfold mem_read in Hread.
      destruct (_ <=? _) eqn:E'; [discriminate|]. apply Z.leb_gt in E'. lia. }
  rewrite (base64_encode_at_inside _ _ _ _ data Hread).
  apply mem_read_length in Hread; [|lia|lia].
  destruct (malloc_ok h _); [|eexists; now short_reply].
  unfold reply.
  destruct (send_line_defined h ("OK " ++ base64_encode_chars data)%string)
    as [bytes ->]; [|eauto].
  rewrite len_append. change (C.len "OK ") with 3.
  rewrite (encode_chars_len (S (List.length data)) data) by lia.
  rewrite Hread. unfold C.BUFSIZE.
  assert ((C.strtoull len_s + 2) / 3 <= 2047)
    by (Z.div_mod_to_equations; lia).
  lia.
Qed.

Lemma read_without_wrap_is_answered_witness :
  exists bytes,
    handle_command plain_host
      [mkNode "foo" (fresh_block plain_host 8) 8] "READ foo 3 5"
    = Replied bytes [mkNode "foo" (fresh_block plain_host 8) 8].
Proof.
  apply (read_without_wrap_is_answered plain_host
           [mkNode "foo" (fresh_block plain_host 8) 8]
           "READ foo 3 5" "foo" "3" "5" []).
  - reflexivity.
  - reflexivity.
  - reflexivity.
  - vm_compute. discriminate.
Defined.

(** ** What a command leaves alone *)

Lemma find_store_other reg nm blk other :
  other <> nm ->
  find_alloc (store_alloc reg nm blk) other = find_alloc reg other.
Proof.
  intros Hneq. induction reg as [|m reg IH]; cbn [store_alloc find_alloc];
    [reflexivity|].
  destruct (C.streq (name m) nm) eqn:E.
  - apply String.eqb_eq in E. cbn [find_alloc name].
    now rewrite streq_other by congruence.
  - cbn [find_alloc]. now rewrite IH.
Qed.

(** X10: a command addresses at most the entry its second token names:
    for every other name, the entry found after the command, contents
    included, is the one found before. *)
Theorem other_entries_untouched (h : host) (reg reg' : registry)
  (line bytes other : string) :
  handle_command h reg line = Replied bytes reg' ->
  nth_error (tokens_of line) 1 <> Some other ->
  find_alloc reg' other = find_alloc reg other.
Proof.
  intros H Hother. pose proof (tokens_no_nul line) as Hnn.
  unfold handle_command in H. fold (tokens_of line) in H.
  destruct (tokens_of line) as [|tok args].
  { apply reply_inv in H. now subst. }
  cbn [nth_error] in Hother.
  destruct (C.streq tok "ALLOC").
  { destruct args as [|nm [|size_s args]];
      try (apply reply_inv in H; now subst).
    destruct (add_alloc h reg nm _) as [r| | | |] eqn:E; try discriminate H;
      try (apply reply_inv in H; now subst).
    apply reply_inv in H. subst reg'.
    apply add_alloc_added in E as [_ ->].
    inversion Hnn as [|? ? _ Hnn']; subst. inversion Hnn' as [|? ? Hnm _]; subst.
    cbn [find_alloc name]. unfold C.strdup. rewrite (c_str_fixed nm Hnm).
    rewrite streq_other; [reflexivity|]. intros ->. now apply Hother. }
  destruct (C.streq tok "WRITE").
  { destruct args as [|nm [|offset_s [|b64 args]]];
      try (apply reply_inv in H; now subst).
    destruct (find_alloc reg nm) as [n|];
      [|apply reply_inv in H; now subst].
    destruct (base64_decode h b64) as [data|];
      [|apply reply_inv in H; now subst].
    destruct (size n <? _); [apply reply_inv in H; now subst|].
    destruct (memcpy_at (ptr n) _ data) as [blk|]; [|discriminate].
    apply reply_inv in H. subst reg'.
    apply find_store_other. intros ->. now apply Hother. }
  destruct (C.streq tok "READ").
  { destruct args as [|nm [|offset_s [|len_s args]]];
      try (apply reply_inv in H; now subst).
    destruct (find_alloc reg nm) as [n|];
      [|apply reply_inv in H; now subst].
    destruct (size n <? _); [apply reply_inv in H; now subst|].
    destruct (base64_encode_at h (ptr n) _ _) as [b64| |];
      try discriminate H; apply reply_inv in H; now subst. }
  destruct (C.streq tok "FREE").
  { destruct args as [|nm args]; [apply reply_inv in H; now subst|].
    destruct (remove_alloc reg nm) as [r|] eqn:E;
      apply reply_inv in H; subst reg'; [|reflexivity].
    apply (remove_alloc_other reg nm r other E). intros ->. now apply Hother. }
  destruct (C.streq tok "LIST"); [apply reply_inv in H; now subst|].
  destruct (C.streq tok "EXIT"); apply reply_inv in H; now subst.
Qed.

Lemma other_entries_untouched_witness :
  find_alloc
    [mkNode "foo" (list_ascii_of_string "AAAx") 4; mkNode "bar" ["b"%char] 1]
    "bar"
  = find_alloc
      [mkNode "foo" (fresh_block plain_host 4) 4; mkNode "bar" ["b"%char] 1]
      "bar".
Proof.
  apply (other_entries_untouched plain_host
           [mkNode "foo" (fresh_block plain_host 4) 4; mkNode "bar" ["b"%char] 1]
           [mkNode "foo" (list_ascii_of_string "AAAx") 4;
            mkNode "bar" ["b"%char] 1]
           "WRITE foo 0 QUFB" ("OK" ++ LFs)%string "bar").
  - reflexivity.
  - discriminate.
Defined.

Lemma memcpy_at_nth blk offset data blk' (i : nat) :
  0 <= offset -> memcpy_at blk offset data = Some blk' ->
  nth_error blk' i
  = if ((Z.to_nat offset <=? i) && (i <? Z.to_nat offset + List.length data))%nat
    then nth_error data (i - Z.to_nat offset)
    else nth_error blk i.
Proof.
  intros Hoff. unfold memcpy_at.
  destruct (_ <=? _) eqn:E; [|discriminate]. apply Z.leb_le in E.
  intros [= <-].
  assert (List.length (firstn (Z.to_nat offset) blk) = Z.to_nat offset) as Hl
    by (apply firstn_length_le; lia).
  destruct (Nat.leb_spec (Z.to_nat offset) i) as [Hle|Hlt]; cbn [andb].
  - rewrite nth_error_app2 by lia. rewrite Hl.
    destruct (Nat.ltb_spec i (Z.to_nat offset + List.length data)) as [Hin|Hout].
    + now rewrite nth_error_app1 by lia.
    + rewrite nth_error_app2 by lia. rewrite nth_error_skipn. f_equal. lia.
  - rewrite nth_error_app1 by lia. rewrite nth_error_firstn.
    destruct (Nat.ltb_spec i (Z.to_nat offset)); [reflexivity|lia].
Qed.

(** X11: a WRITE answered [OK] stores the decoded payload at [offset] in
    the block of the named entry and nothing else: the entry keeps its name,
    its size and the length of its block, the bytes from [offset] on are
    those of the payload, and every byte outside that range is as before. *)
Theorem write_stores_payload_only (h : host) (reg reg' : registry)
  (line nm offset_s b64 : string) (rest : list string) :
  tokens_of line = "WRITE" :: nm :: offset_s :: b64 :: rest ->
  handle_command h reg line = Replied ("OK" ++ LFs)%string reg' ->
  exists n data blk,
    find_alloc reg nm = Some n
    /\ base64_decode h b64 = Some data
    /\ find_alloc reg' nm = Some (mkNode (name n) blk (size n))
    /\ List.length blk = List.length (ptr n)
    /\ forall i : nat,
         nth_error blk i
         = if ((Z.to_nat (C.strtoull offset_s) <=? i)
               && (i <? Z.to_nat (C.strtoull offset_s) + List.length data))%nat
           then nth_error data (i - Z.to_nat (C.strtoull offset_s))
           else nth_error (ptr n) i.
Proof.
  intros Htok H. unfold handle_command in H. fold (tokens_of line) in H.
  rewrite Htok in H. cbn [C.streq String.eqb Ascii.eqb Bool.eqb andb] in H.
  destruct (find_alloc reg nm) as [n|] eqn:Hf.
  2:{ apply reply_bytes_short in H as [H _];
        [discriminate|vm_compute; reflexivity]. }
  destruct (base64_decode h b64) as [data|].
  2:{ apply reply_bytes_short in H as [H _];
        [discriminate|vm_compute; reflexivity]. }
  destruct (size n <? _).
  { apply reply_bytes_short in H as [H _];
      [discriminate|vm_compute; reflexivity]. }
  rewrite wrap_strtoull in H. pose proof (strtoull_range offset_s) as Ho.
  destruct (memcpy_at (ptr n) _ data) as [blk|] eqn:Hc; [|discriminate].
  apply reply_inv in H. subst reg'.
  exists n, data, blk. split; [reflexivity|]. split; [reflexivity|].
  split; [now apply find_store_alloc|].
  split; [apply (memcpy_at_length _ _ _ _ (proj1 Ho) Hc)|].
  intros i. apply (memcpy_at_nth _ _ _ _ i (proj1 Ho) Hc).
Qed.

Lemma write_stores_payload_only_witness :
  exists n data blk,
    find_alloc [mkNode "foo" (fresh_block plain_host 6) 6] "foo" = Some n
    /\ base64_decode plain_host "QUJD" = Some data
    /\ find_alloc [mkNode "foo" (list_ascii_of_string "xxABCx") 6] "foo"
       = Some (mkNode (name n) blk (size n))
    /\ List.length blk = List.length (ptr n)
    /\ forall i : nat,
         nth_error blk i
         = if ((Z.to_nat (C.strtoull "2") <=? i)
               && (i <? Z.to_nat (C.strtoull "2") + List.length data))%nat
           then nth_error data (i - Z.to_nat (C.strtoull "2"))
           else nth_error (ptr n) i.
Proof.
  apply (write_stores_payload_only plain_host
           [mkNode "foo" (fresh_block plain_host 6) 6]
           [mkNode "foo" (list_ascii_of_string "xxABCx") 6]
           "WRITE foo 2 QUJD" "foo" "2" "QUJD" []);
    reflexivity.
Defined.

(** ** More on the codec *)

Lemma b64val_cases (c : ascii) :
  ((b64val c =? -1)
   || ((0 <=? b64val c) && (b64val c <? 64)
       && Ascii.eqb (b64char (b64val c)) c)) = true.
Proof.
  destruct c as [[] [] [] [] [] [] [] []]; vm_compute; reflexivity.
Qed.

Lemma alphabet_cases (c : ascii) :
  b64val c = -1 \/ (0 <= b64val c < 64 /\ b64char (b64val c) = c).
Proof.
  pose proof (b64val_cases c) as H.
  apply orb_true_iff in H as [H|H].
  - left. now apply Z.eqb_eq.
  - right. apply andb_prop in H as [H H3]. apply andb_prop in H as [H1 H2].
    apply Z.leb_le in H1. apply Z.ltb_lt in H2. apply Ascii.eqb_eq in H3.
    now repeat split.
Qed.

(** X12: [b64val] and the table [b64chars] are inverse to each other: the
    value of the [i]-th character is [i], a character with a value is the
    character the table holds at that value, and every other byte (the pad
    [=] too) has the value -1. *)
Theorem alphabet_inverse :
  (forall i, 0 <= i < 64 -> b64val (b64char i) = i)
  /\ (forall c, b64val c = -1
                \/ (0 <= b64val c < 64 /\ b64char (b64val c) = c))
  /\ b64val "="%char = -1.
Proof.
  split; [exact b64val_b64char|]. split; [exact alphabet_cases|reflexivity].
Qed.

Lemma alphabet_inverse_witness :
  b64val (b64char 63) = 63 /\ b64char (b64val "/"%char) = "/"%char.
Proof.
  destruct alphabet_inverse as [Hv [Hc _]]. split.
  - apply Hv. lia.
  - destruct (Hc "/"%char) as [E|[_ E]]; [discriminate E|exact E].
Defined.

Lemma b64char_text (x : Z) : b64_text (b64char (Z.land x 63)) = true.
Proof.
  pose proof (sextet_range x 0 ltac:(lia)) as R. rewrite Z.shiftr_0_r in R.
  unfold b64_text, b64_alpha. rewrite (b64val_b64char _ R).
  apply orb_true_iff. left. apply Z.leb_le. lia.
Qed.

Lemma encode_chars_text : forall k data,
  (List.length data < 3 * k)%nat ->
  all_chars b64_text (base64_encode_chars data) = true.
Proof.
  induction k as [|k IH]; intros data H; [lia|].
  destruct data as [|d0 [|d1 [|d2 data]]];
    cbn [base64_encode_chars all_chars]; rewrite ?b64char_text;
    try reflexivity.
  cbn [List.length] in H. now rewrite (IH data) by lia.
Qed.

Lemma encoder_text_only (data : list ascii) :
  all_chars b64_text (base64_encode_chars data) = true
  /\ b64_text C.LF = false.
Proof.
  split; [apply (encode_chars_text (S (List.length data))); lia|reflexivity].
Qed.

(** X13: the text [base64_encode] writes has exactly the [out_len]
    characters it allocated room for, [((len + 2) / 3) * 4], and holds
    nothing but characters of the alphabet and [=]: no space, no newline
    and no NUL, so the reply of READ is one token on one line. *)
Theorem encoder_output_shape (data : list ascii) :
  C.len (base64_encode_chars data) = (Z.of_nat (List.length data) + 2) / 3 * 4
  /\ all_chars b64_text (base64_encode_chars data) = true
  /\ b64_text C.SP = false /\ b64_text C.LF = false /\ b64_text C.NUL = false.
Proof.
  split; [apply (encode_chars_len (S (List.length data))); lia|].
  split; [apply (encode_chars_text (S (List.length data))); lia|].
  now repeat split.
Qed.

(** X14: when [base64_decode] succeeds the payload had a length that is a
    multiple of four and the bytes stored are at least one and at most
    three per group of four characters: never more than the
    [(len / 4) * 3] bytes allocated for them. *)
Theorem decoder_output_bound (h : host) (s : string) (out : list ascii) :
  base64_decode h s = Some out ->
  C.len s mod 4 = 0
  /\ C.len s / 4 <= Z.of_nat (List.length out) <= C.len s / 4 * 3.
Proof.
  unfold base64_decode. rewrite wrap_mod_4.
  destruct (C.len s mod 4 =? 0) eqn:E; [|discriminate]. cbn [negb].
  destruct (malloc_ok h _); [|discriminate]. intros H.
  apply Z.eqb_eq in E. split; [exact E|].
  now apply (decode_loop_length (S (String.length s)) s out ltac:(lia)) in H.
Qed.

Lemma decoder_output_bound_witness :
  C.len "QUJDRA!!" mod 4 = 0
  /\ C.len "QUJDRA!!" / 4 <= Z.of_nat (List.length (list_ascii_of_string "ABCD"))
     <= C.len "QUJDRA!!" / 4 * 3.
Proof.
  apply (decoder_output_bound plain_host "QUJDRA!!"
           (list_ascii_of_string "ABCD")).
  reflexivity.
Defined.

Lemma decode_group_with_pad c0 c1 c2 c3 :
  (Ascii.eqb c0 "="%char || Ascii.eqb c1 "="%char
   || Ascii.eqb c2 "="%char || Ascii.eqb c3 "="%char) = true ->
  base64_decode_group c0 c1 c2 c3 = None.
Proof.
  intros H. unfold base64_decode_group.
  assert (((b64val c0 <? 0) || (b64val c1 <? 0)
           || ((if Ascii.eqb c2 "="%char then -2 else b64val c2) <? -1)
           || ((if Ascii.eqb c3 "="%char then -2 else b64val c3) <? -1)) = true)
    as ->; [|reflexivity].
  repeat rewrite orb_true_iff in H. repeat rewrite orb_true_iff.
  destruct H as [[[H|H]|H]|H].
  - apply Ascii.eqb_eq in H. subst c0. now left; left; left.
  - apply Ascii.eqb_eq in H. subst c1. now left; left; right.
  - rewrite H. now left; right.
  - rewrite H. now right.
Qed.

Lemma decode_loop_with_pad : forall k s,
  (String.length s < 4 * k)%nat ->
  all_chars (fun c => negb (Ascii.eqb c "="%char)) s = false ->
  base64_decode_loop s = None.
Proof.
  induction k as [|k IH]; intros s Hk H; [lia|].
  destruct s as [|c0 [|c1 [|c2 [|c3 s]]]]; cbn [base64_decode_loop];
    try reflexivity; [discriminate H|].
  cbn [all_chars String.length] in *.
  destruct (Ascii.eqb c0 "="%char || Ascii.eqb c1 "="%char
            || Ascii.eqb c2 "="%char || Ascii.eqb c3 "="%char) eqn:E.
  - now rewrite (decode_group_with_pad _ _ _ _ E).
  - repeat (apply orb_false_iff in E as [E ?]).
    rewrite (IH s ltac:(lia)).
    + now destruct (base64_decode_group c0 c1 c2 c3).
    + destruct (Ascii.eqb c0 "="%char), (Ascii.eqb c1 "="%char),
        (Ascii.eqb c2 "="%char), (Ascii.eqb c3 "="%char);
        try discriminate. exact H.
Qed.

(** X15: a WRITE to a live entry whose payload holds a [=] anywhere is
    answered [ERR bad_base64] and stores nothing: the decoder gives the pad
    the value -2 in the last two places of a group, -1 in the first two,
    and refuses both. *)
Theorem padded_payload_refused (h : host) (reg : registry)
  (line nm offset_s b64 : string) (rest : list string) :
  tokens_of line = "WRITE" :: nm :: offset_s :: b64 :: rest ->
  live reg nm = true ->
  all_chars (fun c => negb (Ascii.eqb c "="%char)) b64 = false ->
  handle_command h reg line = Replied ("ERR bad_base64" ++ LFs)%string reg.
Proof.
  intros Htok Hlive Hpad. on_tokens line Htok.
  cbn [C.streq String.eqb Ascii.eqb Bool.eqb andb].
  unfold live in Hlive. destruct (find_alloc reg nm); [|discriminate].
  assert (base64_decode h b64 = None) as ->; [|now short_reply].
  unfold base64_decode. destruct (negb _); [reflexivity|].
  destruct (malloc_ok h _); [|reflexivity].
  apply (decode_loop_with_pad (S (String.length b64))); [lia|exact Hpad].
Qed.

Lemma padded_payload_refused_witness :
  handle_command plain_host [mkNode "foo" (fresh_block plain_host 4) 4]
    "WRITE foo 0 QQ=="
  = Replied ("ERR bad_base64" ++ LFs)%string
      [mkNode "foo" (fresh_block plain_host 4) 4].
Proof.
  apply (padded_payload_refused plain_host
           [mkNode "foo" (fresh_block plain_host 4) 4]
           "WRITE foo 0 QQ==" "foo" "0" "QQ==" []);
    reflexivity.
Defined.

(** X16: bytes whose number is a multiple of three come back from
    [base64_decode] as they went into [base64_encode], on a host that
    grants the output block. *)
Theorem codec_round_trip (h : host) (data : list ascii) (k : nat) :
  List.length data = (3 * k)%nat ->
  Z.of_nat (4 * k)%nat < 2 ^ 64 ->
  malloc_ok h (Z.of_nat (3 * k)%nat) = true ->
  base64_decode h (base64_encode_chars data) = Some data.
Proof.
  intros Hlen Hk Hm.
  destruct (decode_encode h data k Hk) as [H _]. now apply H.
Qed.

Lemma codec_round_trip_witness :
  base64_decode plain_host
    (base64_encode_chars (list_ascii_of_string "any six"%string ++ [C.NUL; C.LF]))
  = Some (list_ascii_of_string "any six"%string ++ [C.NUL; C.LF]).
Proof.
  apply (codec_round_trip plain_host _ 3); reflexivity.
Defined.

Lemma code_chr (x : Z) : 0 <= x < 256 -> C.code (C.chr x) = x.
Proof.
  intros H. unfold C.code, C.chr.
  rewrite N_ascii_embedding by (change 256%N with (Z.to_N 256); lia).
  lia.
Qed.

Lemma byte_range (t k : Z) : 0 <= k -> 0 <= Z.land (Z.shiftr t k) 255 < 256.
Proof.
  intros Hk. change 255 with (Z.ones 8). rewrite Z.land_ones by lia.
  apply Z.mod_pos_bound. reflexivity.
Qed.

Lemma b64_alpha_value (c : ascii) :
  b64_alpha c = true ->
  0 <= b64val c < 64 /\ b64char (b64val c) = c
  /\ Ascii.eqb c "="%char = false.
Proof.
  unfold b64_alpha. intros H. apply Z.leb_le in H.
  destruct alphabet_cases with (c := c) as [E|[R E]]; [lia|].
  repeat split; try lia; try exact E.
  apply Ascii.eqb_neq. intros ->. vm_compute in H. now apply H.
Qed.

(** The three bytes the decoder stores for four values of six bits encode
    back to those four values. *)
Lemma sextets_of_decoded (s0 s1 s2 s3 : Z) :
  0 <= s0 < 64 -> 0 <= s1 < 64 -> 0 <= s2 < 64 -> 0 <= s3 < 64 ->
  let t := s0 * 262144 + s1 * 4096 + s2 * 64 + s3 in
  let triple :=
    C.u32 (Z.lor (Z.lor (Z.shiftl (C.code (C.chr (Z.land (Z.shiftr t 16) 255))) 16)
                        (Z.shiftl (C.code (C.chr (Z.land (Z.shiftr t 8) 255))) 8))
                 (C.code (C.chr (Z.land t 255)))) in
  Z.land (Z.shiftr triple 18) 63 = s0
  /\ Z.land (Z.shiftr triple 12) 63 = s1
  /\ Z.land (Z.shiftr triple 6) 63 = s2
  /\ Z.land triple 63 = s3.
Proof.
  intros H0 H1 H2 H3 t triple.
  pose proof (byte_range t 16 ltac:(lia)) as B0.
  pose proof (byte_range t 8 ltac:(lia)) as B1.
  pose proof (byte_range t 0 ltac:(lia)) as B2. rewrite Z.shiftr_0_r in B2.
  assert (triple = t) as ->.
  { subst triple. rewrite !code_chr by assumption.
    rewrite encode_triple_value by assumption.
    bits_to_arith. change (2 ^ 16) with 65536. change (2 ^ 8) with 256.
    assert (0 <= t < 16777216) by (subst t; lia).
    clearbody t. Z.div_mod_to_equations. lia. }
  bits_to_arith. change (2 ^ 18) with 262144. change (2 ^ 12) with 4096.
  change (2 ^ 6) with 64. subst t.
  repeat split; Z.div_mod_to_equations; lia.
Qed.

Lemma encode_of_decoded_group c0 c1 c2 c3 bytes :
  b64_alpha c0 = true -> b64_alpha c1 = true ->
  b64_alpha c2 = true -> b64_alpha c3 = true ->
  base64_decode_group c0 c1 c2 c3 = Some bytes ->
  forall rest,
    base64_encode_chars (bytes ++ rest)
    = String c0 (String c1 (String c2 (String c3 (base64_encode_chars rest)))).
Proof.
  intros A0 A1 A2 A3.
  apply b64_alpha_value in A0 as [R0 [E0 P0]].
  apply b64_alpha_value in A1 as [R1 [E1 P1]].
  apply b64_alpha_value in A2 as [R2 [E2 P2]].
  apply b64_alpha_value in A3 as [R3 [E3 P3]].
  unfold base64_decode_group. rewrite P2, P3.
  assert ((b64val c0 <? 0) = false) as -> by (apply Z.ltb_ge; lia).
  assert ((b64val c1 <? 0) = false) as -> by (apply Z.ltb_ge; lia).
  assert ((b64val c2 <? -1) = false) as -> by (apply Z.ltb_ge; lia).
  assert ((b64val c3 <? -1) = false) as -> by (apply Z.ltb_ge; lia).
  assert ((-1 <? b64val c2) = true) as -> by (apply Z.ltb_lt; lia).
  assert ((-1 <? b64val c3) = true) as -> by (apply Z.ltb_lt; lia).
  cbn [orb app]. rewrite (decode_quad_value _ _ _ _ R0 R1 R2 R3).
  intros H rest.
  assert (bytes
          = [C.chr (Z.land (Z.shiftr (b64val c0 * 262144 + b64val c1 * 4096
                                      + b64val c2 * 64 + b64val c3) 16) 255);
             C.chr (Z.land (Z.shiftr (b64val c0 * 262144 + b64val c1 * 4096
                                      + b64val c2 * 64 + b64val c3) 8) 255);
             C.chr (Z.land (b64val c0 * 262144 + b64val c1 * 4096
                            + b64val c2 * 64 + b64val c3) 255)]) as ->
    by congruence.
  clear H. cbn [app base64_encode_chars].
  destruct (sextets_of_decoded _ _ _ _ R0 R1 R2 R3) as [S0 [S1 [S2 S3]]].
  cbv zeta in S0, S1, S2, S3. rewrite S0, S1, S2, S3.
  now rewrite E0, E1, E2, E3.
Qed.

Lemma encode_of_decoded_loop : forall k s out,
  (String.length s < 4 * k)%nat ->
  all_chars b64_alpha s = true ->
  base64_decode_loop s = Some out ->
  base64_encode_chars out = s.
Proof.
  induction k as [|k IH]; intros s out Hk Ha H; [lia|].
  destruct s as [|c0 [|c1 [|c2 [|c3 s]]]]; cbn [base64_decode_loop] in H;
    try discriminate.
  - now injection H as <-.
  - cbn [all_chars String.length] in *.
    apply andb_prop in Ha as [A0 Ha]. apply andb_prop in Ha as [A1 Ha].
    apply andb_prop in Ha as [A2 Ha]. apply andb_prop in Ha as [A3 Ha].
    destruct (base64_decode_group c0 c1 c2 c3) as [bytes|] eqn:G;
      [|discriminate].
    destruct (base64_decode_loop s) as [out'|] eqn:L; [|discriminate].
    assert (out = bytes ++ out') as -> by congruence.
    rewrite (encode_of_decoded_group c0 c1 c2 c3 bytes A0 A1 A2 A3 G).
    now rewrite (IH s out' ltac:(lia) Ha L).
Qed.

(** X17: a payload made of characters of the alphabet only, once decoded,
    encodes back to itself: what READ returns for bytes stored by such a
    WRITE is the text that was written. *)
Theorem encode_of_decoded (h : host) (s : string) (out : list ascii) :
  all_chars b64_alpha s = true ->
  base64_decode h s = Some out ->
  base64_encode_chars out = s.
Proof.
  intros Ha. unfold base64_decode. destruct (negb _); [discriminate|].
  destruct (malloc_ok h _); [|discriminate].
  apply (encode_of_decoded_loop (S (String.length s))); [lia|exact Ha].
Qed.

Lemma encode_of_decoded_witness :
  base64_encode_chars (list_ascii_of_string "hello!") = "aGVsbG8h".
Proof.
  apply (encode_of_decoded plain_host "aGVsbG8h"); reflexivity.
Defined.

(** ** READ and WRITE inside [2 ^ 64] *)

(** X18: on a live entry whose block covers its size, a READ of at most
    6138 bytes whose [offset + len] stays below [2 ^ 64] is answered
    [ERR out_of_bounds] exactly when [offset + len] exceeds the size;
    otherwise the reply is [OK] and the encoding of the [len] bytes of the
    block from [offset] on, or [ERR nomem] when the host refuses the text
    buffer.  The registry is never changed. *)
Theorem read_reply_exact (h : host) (reg : registry)
  (line nm offset_s len_s : string) (rest : list string) (n : AllocNode) :
  blocks_ok reg ->
  tokens_of line = "READ" :: nm :: offset_s :: len_s :: rest ->
  find_alloc reg nm = Some n ->
  C.strtoull offset_s + C.strtoull len_s < 2 ^ 64 ->
  C.strtoull len_s <= 6138 ->
  handle_command h reg line
  = Replied
      (if size n <? C.strtoull offset_s + C.strtoull len_s
       then ("ERR out_of_bounds" ++ LFs)%string
       else if malloc_ok h ((C.strtoull len_s + 2) / 3 * 4 + 1)
            then ("OK "
                  ++ base64_encode_chars
                       (firstn (Z.to_nat (C.strtoull len_s))
                          (skipn (Z.to_nat (C.strtoull offset_s)) (ptr n)))
                  ++ LFs)%string
            else ("ERR nomem" ++ LFs)%string)
      reg.
Proof.
  intros Hinv Htok Hfind Hnowrap Hlen. on_tokens line Htok.
  cbn [C.streq String.eqb Ascii.eqb Bool.eqb andb]. rewrite Hfind.
  pose proof (strtoull_range offset_s) as Ho.
  pose proof (strtoull_range len_s) as Hl.
  rewrite !wrap_strtoull, wrap_small by lia.
  destruct (size n <? _) eqn:E; [now short_reply|].
  apply Z.ltb_ge in E.
  apply (blocks_ok_find reg nm n Hinv), block_ok_spec in Hfind as [Hs Hb].
  pose proof (alloc_request_bounds _ (proj1 Hs)) as [Hreq _].
  assert (mem_read (ptr n) (C.strtoull offset_s) (C.strtoull len_s)
          = Some (firstn (Z.to_nat (C.strtoull len_s))
                    (skipn (Z.to_nat (C.strtoull offset_s)) (ptr n)))) as Hread.
  { unfold mem_read.
    destruct (_ <=? _) eqn:E'; [reflexivity|]. apply Z.leb_gt in E'. lia. }
  rewrite (base64_encode_at_inside _ _ _ _ _ Hread).
  pose proof (mem_read_length _ _ _ _ (proj1 Ho) (proj1 Hl) Hread) as Hdl.
  set (data := firstn _ _) in *.
  assert ((C.strtoull len_s + 2) / 3 <= 2046) as Hq
    by (Z.div_mod_to_equations; lia).
  rewrite encode_request_small by lia.
  destruct (malloc_ok h _); [|now short_reply].
  unfold reply. rewrite send_line_short.
  - now rewrite append_assoc.
  - rewrite len_append. change (C.len "OK ") with 3.
    rewrite (encode_chars_len (S (List.length data)) data) by lia.
    rewrite Hdl. unfold C.BUFSIZE. lia.
Qed.

Lemma read_reply_exact_witness :
  handle_command plain_host
    [mkNode "foo" (list_ascii_of_string "..hello.") 8] "READ foo 2 5"
  = Replied ("OK aGVsbG8=" ++ LFs)%string
      [mkNode "foo" (list_ascii_of_string "..hello.") 8].
Proof.
  apply (read_reply_exact plain_host
           [mkNode "foo" (list_ascii_of_string "..hello.") 8]
           "READ foo 2 5" "foo" "2" "5" []
           (mkNode "foo" (list_ascii_of_string "..hello.") 8)).
  - reflexivity.
  - reflexivity.
  - reflexivity.
  - reflexivity.
  - vm_compute. discriminate.
Defined.

(** X19: on a live entry whose block covers its size, a WRITE whose payload
    decodes and whose [offset + data_len] stays below [2 ^ 64] is answered
    [ERR out_of_bounds], with nothing stored, exactly when
    [offset + data_len] exceeds the size, and [OK] otherwise. *)
Theorem write_reply_exact (h : host) (reg : registry)
  (line nm offset_s b64 : string) (rest : list string) (n : AllocNode)
  (data : list ascii) :
  blocks_ok reg ->
  tokens_of line = "WRITE" :: nm :: offset_s :: b64 :: rest ->
  find_alloc reg nm = Some n ->
  base64_decode h b64 = Some data ->
  C.strtoull offset_s + Z.of_nat (List.length data) < 2 ^ 64 ->
  handle_command h reg line
  = if size n <? C.strtoull offset_s + Z.of_nat (List.length data)
    then Replied ("ERR out_of_bounds" ++ LFs)%string reg
    else Replied ("OK" ++ LFs)%string
           (store_alloc reg nm
              (firstn (Z.to_nat (C.strtoull offset_s)) (ptr n) ++ data
               ++ skipn (Z.to_nat (C.strtoull offset_s
                                   + Z.of_nat (List.length data))) (ptr n))).
Proof.
  intros Hinv Htok Hfind Hdec Hnowrap. on_tokens line Htok.
  cbn [C.streq String.eqb Ascii.eqb Bool.eqb andb]. rewrite Hfind, Hdec.
  pose proof (strtoull_range offset_s) as Ho.
  rewrite wrap_strtoull, wrap_small by lia.
  destruct (size n <? _) eqn:E; [now short_reply|].
  apply Z.ltb_ge in E.
  apply (blocks_ok_find reg nm n Hinv), block_ok_spec in Hfind as [Hs Hb].
  pose proof (alloc_request_bounds _ (proj1 Hs)) as [Hreq _].
  unfold memcpy_at.
  assert ((C.strtoull offset_s + Z.of_nat (List.length data)
           <=? Z.of_nat (List.length (ptr n))) = true) as ->
    by (apply Z.leb_le; lia).
  now short_reply.
Qed.

Lemma write_reply_exact_witness :
  handle_command plain_host
    [mkNode "foo" (list_ascii_of_string "12345") 5] "WRITE foo 3 QUJD"
  = Replied ("ERR out_of_bounds" ++ LFs)%string
      [mkNode "foo" (list_ascii_of_string "12345") 5].
Proof.
  apply (write_reply_exact plain_host
           [mkNode "foo" (list_ascii_of_string "12345") 5]
           "WRITE foo 3 QUJD" "foo" "3" "QUJD" []
           (mkNode "foo" (list_ascii_of_string "12345") 5)
           (list_ascii_of_string "ABC"));
    reflexivity.
Defined.

(** X20: a WRITE of the encoding of [3 * k] bytes inside a live entry is
    answered [OK], and the READ of the same range sent next is answered
    [OK] with the text that was written, when the hosts grant the two
    scratch buffers and the reply is shorter than 8190 characters. *)
Theorem write_read_round_trip (h1 h2 : host) (reg : registry) (n : AllocNode)
  (nm l_write l_read offset_s len_s : string) (data : list ascii) (k : nat)
  (rest1 rest2 : list string) :
  find_alloc reg nm = Some n ->
  size n <= Z.of_nat (List.length (ptr n)) ->
  size n < 2 ^ 64 ->
  tokens_of l_write
  = "WRITE" :: nm :: offset_s :: base64_encode_chars data :: rest1 ->
  tokens_of l_read = "READ" :: nm :: offset_s :: len_s :: rest2 ->
  List.length data = (3 * k)%nat ->
  C.strtoull len_s = Z.of_nat (List.length data) ->
  C.strtoull offset_s + Z.of_nat (List.length data) <= size n ->
  malloc_ok h1 (Z.of_nat (3 * k)%nat) = true ->
  malloc_ok h2 (Z.of_nat (4 * k)%nat + 1) = true ->
  Z.of_nat (4 * k)%nat + 3 < C.BUFSIZE - 2 ->
  exists reg1,
    handle_command h1 reg l_write = Replied ("OK" ++ LFs)%string reg1
    /\ handle_command h2 reg1 l_read
       = Replied ("OK " ++ base64_encode_chars data ++ LFs)%string reg1.
Proof. apply write_then_read. Qed.

Lemma write_read_round_trip_witness :
  exists reg1,
    handle_command plain_host
      [mkNode "foo" (fresh_block plain_host 10) 10] "WRITE foo 4 aGVsbG8h"
    = Replied ("OK" ++ LFs)%string reg1
    /\ handle_command plain_host reg1 "READ foo 4 6"
       = Replied ("OK aGVsbG8h" ++ LFs)%string reg1.
Proof.
  apply (write_read_round_trip plain_host plain_host
           [mkNode "foo" (fresh_block plain_host 10) 10]
           (mkNode "foo" (fresh_block plain_host 10) 10)
           "foo" "WRITE foo 4 aGVsbG8h" "READ foo 4 6" "4" "6"
           (list_ascii_of_string "hello!") 2 [] []);
    try reflexivity; vm_compute; discriminate.
Defined.

(** ** Lines and sessions *)

Lemma recv_loop_no_newline h input : forall cap len acc,
  all_chars (fun c => negb (Ascii.eqb c C.LF)) input = true ->
  recv_loop h input cap len acc = None.
Proof.
  induction input as [|c input IH]; intros cap len acc H;
    cbn [recv_loop]; [reflexivity|].
  cbn [all_chars] in H. apply andb_prop in H as [Hc H].
  apply negb_true_iff in Hc. rewrite Hc.
  destruct (cap <=? len + 1); [|now apply IH].
  destruct (malloc_ok h _); [now apply IH|reflexivity].
Qed.

Lemma recv_loop_line h (line : string) : forall rest cap len acc,
  all_chars (fun c => negb (Ascii.eqb c C.LF)) line = true ->
  grants_all h \/ len + C.len line < cap ->
  recv_loop h (line ++ String C.LF rest) cap len acc
  = Some ((string_of_list_ascii (rev acc) ++ line)%string, rest).
Proof.
  induction line as [|c line IH]; intros rest cap len acc H Hroom;
    cbn [String.append recv_loop].
  - rewrite Ascii.eqb_refl. now rewrite append_empty.
  - cbn [all_chars] in H. apply andb_prop in H as [Hc H].
    apply negb_true_iff in Hc. rewrite Hc.
    assert (C.len (String c line) = C.len line + 1) as Hl
      by (unfold C.len; cbn [String.length]; lia).
    pose proof (len_nonneg line) as Hn.
    destruct (cap <=? len + 1) eqn:E.
    + destruct Hroom as [Hg|Hroom];
        [|apply Z.leb_le in E; lia].
      rewrite (Hg _). rewrite (IH rest _ _ _ H (or_introl Hg)).
      now rewrite string_of_rev_cons, append_assoc.
    + apply Z.leb_gt in E.
      rewrite (IH rest cap (len + 1) (c :: acc) H).
      * now rewrite string_of_rev_cons, append_assoc.
      * destruct Hroom as [Hg|Hroom]; [now left|right; lia].
Qed.

(** X21: [recv_line] cuts the stream at its first newline: it returns the
    bytes before it and leaves the bytes after it, for a line of any length
    when the host grants every [realloc], and for a line shorter than
    [BUFSIZE] as soon as the first [malloc] is granted; on a stream
    without a newline it returns NULL, whatever the host. *)
Theorem recv_line_frames :
  (forall h input,
     all_chars (fun c => negb (Ascii.eqb c C.LF)) input = true ->
     recv_line h input = None)
  /\ (forall h line rest,
        all_chars (fun c => negb (Ascii.eqb c C.LF)) line = true ->
        malloc_ok h C.BUFSIZE = true ->
        grants_all h \/ C.len line < C.BUFSIZE ->
        recv_line h (line ++ String C.LF rest) = Some (line, rest)).
Proof.
  split.
  - intros h input H. unfold recv_line.
    destruct (malloc_ok h C.BUFSIZE); [|reflexivity].
    now apply recv_loop_no_newline.
  - intros h line rest H Hm Hroom. unfold recv_line. rewrite Hm.
    rewrite (recv_loop_line h line rest C.BUFSIZE 0 [] H); [reflexivity|].
    destruct Hroom as [Hg|Hroom]; [now left|right; lia].
Qed.

Lemma recv_line_frames_witness :
  recv_line starved_host "LIST" = None
  /\ recv_line plain_host
       ("ALLOC " ++ long_name ++ long_name ++ " 1" ++ String C.LF "LIST")%string
     = Some (("ALLOC " ++ long_name ++ long_name ++ " 1")%string, "LIST").
Proof.
  destruct recv_line_frames as [Hnone Hsome]. split.
  - apply Hnone. reflexivity.
  - rewrite <- (Hsome plain_host
                  ("ALLOC " ++ long_name ++ long_name ++ " 1")%string "LIST").
    + now rewrite !append_assoc.
    + vm_compute. reflexivity.
    + reflexivity.
    + left. intros sz. reflexivity.
Defined.

Lemma recv_loop_lines h input : forall cap len acc,
  grants_all h ->
  match recv_loop h input cap len acc with
  | Some (line, rest) => lines_from acc input = line :: lines_from [] rest
  | None => lines_from acc input = []
  end.
Proof.
  induction input as [|c input IH]; intros cap len acc Hg;
    cbn [recv_loop lines_from]; [reflexivity|].
  destruct (Ascii.eqb c C.LF); [reflexivity|].
  destruct (cap <=? len + 1); [rewrite (Hg _)|]; now apply IH.
Qed.

Lemma nameless_loop_is_fold : forall fuel rs hs input,
  (forall k, grants_all (rs k)) ->
  (String.length input < fuel)%nat ->
  nameless_loop fuel rs hs input = run_nameless hs (lines_from [] input).
Proof.
  induction fuel as [|fuel IH]; intros rs hs input Hg Hfuel; [lia|].
  cbn [nameless_loop]. unfold recv_line at 1. rewrite (Hg O _).
  pose proof (recv_loop_lines (rs O) input C.BUFSIZE 0 [] (Hg O)) as Hl.
  destruct (recv_loop (rs O) input C.BUFSIZE 0 []) as [[line rest]|] eqn:E.
  - rewrite Hl. cbn [run_nameless].
    destruct (handle_nameless (hs O) line) as [bytes|]; [|reflexivity].
    assert (recv_line (rs O) input = Some (line, rest)) as E'
      by (unfold recv_line; now rewrite (Hg O _)).
    apply recv_line_shorter in E'.
    now rewrite (IH (fun k => rs (S k)) (fun k => hs (S k)) rest)
      by (try lia; intros k; apply Hg).
  - now rewrite Hl.
Qed.

Lemma session_loop_is_fold : forall fuel rs hs reg input,
  (forall k, grants_all (rs k)) ->
  (String.length input < fuel)%nat ->
  session_loop fuel rs hs reg input = run_lines hs reg (lines_from [] input).
Proof.
  induction fuel as [|fuel IH]; intros rs hs reg input Hg Hfuel; [lia|].
  cbn [session_loop]. unfold recv_line at 1. rewrite (Hg O _).
  pose proof (recv_loop_lines (rs O) input C.BUFSIZE 0 [] (Hg O)) as Hl.
  destruct (recv_loop (rs O) input C.BUFSIZE 0 []) as [[line rest]|] eqn:E.
  - rewrite Hl. cbn [run_lines].
    assert (recv_line (rs O) input = Some (line, rest)) as E'
      by (unfold recv_line; now rewrite (Hg O _)).
    apply recv_line_shorter in E'.
    destruct (handle_command (hs O) reg line) as [bytes reg'| |bytes];
      [|reflexivity|].
    + now rewrite (IH (fun k => rs (S k)) (fun k => hs (S k)) reg' rest)
        by (try lia; intros k; apply Hg).
    + now rewrite (nameless_loop_is_fold fuel (fun k => rs (S k))
                     (fun k => hs (S k)) rest)
        by (try lia; intros k; apply Hg).
  - now rewrite Hl.
Qed.

(** Once the head has no name it keeps none: the lines that follow end
    with the socket closed over that head, or leave defined behaviour. *)
Lemma run_nameless_end : forall lines hs sent e,
  run_nameless hs lines = (sent, e) ->
  e = Crashed
  \/ (e = DisconnectedNameless /\ List.length sent = List.length lines).
Proof.
  induction lines as [|l lines IH]; intros hs sent e H;
    cbn [run_nameless] in H.
  - injection H as <- <-. now right.
  - destruct (handle_nameless (hs O) l) as [bytes|];
      [|injection H as _ <-; now left].
    destruct (run_nameless _ lines) as [sent1 e1] eqn:E.
    injection H as <- ->.
    destruct (IH _ _ _ E) as [->|[-> Hlen]]; [now left|right].
    split; [reflexivity|]. cbn [List.length]. now rewrite Hlen.
Qed.

Lemma run_lines_count : forall lines hs reg sent reg',
  run_lines hs reg lines = (sent, Disconnected reg') ->
  List.length sent = List.length lines.
Proof.
  induction lines as [|l lines IH]; intros hs reg sent reg' H;
    cbn [run_lines] in H.
  - now injection H as <- _.
  - destruct (handle_command (hs O) reg l) as [bytes reg1| |bytes];
      [|discriminate|].
    + destruct (run_lines _ reg1 lines) as [sent1 e1] eqn:E.
      injection H as <- ->. cbn [List.length]. f_equal.
      now apply (IH _ _ _ _ E).
    + destruct (run_nameless _ lines) as [sent1 e1] eqn:E.
      injection H as <- ->.
      destruct (run_nameless_end _ _ _ _ E) as [He|[He _]]; discriminate He.
Qed.

Lemma session_fold_eq (rs hs : nat -> host) (reg : registry) (input : string) :
  (forall k, grants_all (rs k)) ->
  session rs hs reg input = run_lines hs reg (lines_from [] input).
Proof. intros Hg. apply session_loop_is_fold; [exact Hg|lia]. Qed.



(** ** What LIST can show *)

Lemma substring_prefix (s : string) : forall n,
  exists tail, s = (String.substring 0 n s ++ tail)%string
               /\ (String.length (String.substring 0 n s) <= n)%nat.
Proof.
  induction s as [|c s IH]; intros n.
  - exists EmptyString. destruct n; cbn; split; (reflexivity || lia).
  - destruct n as [|n]; cbn [String.substring].
    + exists (String c s). cbn. split; [reflexivity|lia].
    + destruct (IH n) as [tail [E L]]. exists tail.
      cbn [String.append String.length]. split; [now rewrite <- E|lia].
Qed.

Lemma list_loop_prefix (reg : registry) : forall pos out,
  pos = C.len out ->
  pos + 100 < C.BUFSIZE ->
  exists cut,
    (out ++ listing reg = list_loop reg pos out ++ cut)%string
    /\ C.len (list_loop reg pos out) <= C.BUFSIZE - 2.
Proof.
  induction reg as [|n reg IH]; intros pos out Hpos Hroom;
    cbn [list_loop listing].
  - exists EmptyString. split; [reflexivity|]. lia.
  - pose proof (len_nonneg out) as Ho.
    pose proof (len_nonneg (list_item n)) as Hn.
    rewrite substring_all by (unfold C.len in Hpos; lia).
    unfold C.snprintf_kept.
    destruct (substring_prefix (list_item n) (Z.to_nat (C.BUFSIZE - pos - 1 - 1)))
      as [tail [Hitem Hkept]].
    destruct (C.BUFSIZE <=? pos + C.len (list_item n) + 100) eqn:E.
    + exists (tail ++ listing reg)%string. split.
      * rewrite Hitem at 1. now rewrite !append_assoc.
      * rewrite len_append. unfold C.len at 2. unfold C.BUFSIZE in *. lia.
    + apply Z.leb_gt in E.
      rewrite (substring_all (list_item n))
        by (unfold C.len, C.BUFSIZE in *; lia).
      destruct (IH (pos + C.len (list_item n)) (out ++ list_item n)%string)
        as [cut [Hcut Hlen]].
      * rewrite len_append. lia.
      * exact E.
      * exists cut. split; [|exact Hlen]. now rewrite <- Hcut, append_assoc.
Qed.

(** X23: the text the LIST branch builds is always a beginning of the full
    enumeration, the [name:size;] texts of all nodes head first: entries
    can be missing at the end and the last one shown can be cut, but
    nothing is reordered or altered; and the text never has more than
    [BUFSIZE - 2] characters, so it stays inside [out]. *)
Theorem list_shows_a_prefix (reg : registry) :
  exists cut,
    listing reg = (list_loop reg 0 EmptyString ++ cut)%string
    /\ C.len (list_loop reg 0 EmptyString) <= C.BUFSIZE - 2.
Proof.
  destruct (list_loop_prefix reg 0 EmptyString eq_refl) as [cut [E L]];
    [reflexivity|].
  exists cut. now split.
Qed.

(** ** ALLOC *)

(** X24: ALLOC looks the name up before it asks for memory: on a live name
    it is answered [ERR already_exists] whatever the host would have
    granted; on a fresh name it is answered [ERR nomem], with the registry
    as it was, when the host refuses [size ? size : 1] bytes; when the host
    grants them, the list node and the copy of the name, it is answered
    [OK], with a new node of that name and of size [strtoull(size_s)] at
    the head of the registry; when the host grants the block and refuses
    the node, [add_alloc] stores through the NULL pointer and nothing is
    answered; and when only the copy of the name is refused, it is
    answered [OK] and the new head of the list has a NULL name. *)
Theorem alloc_outcomes (h : host) (reg : registry)
  (line nm size_s : string) (rest : list string) :
  tokens_of line = "ALLOC" :: nm :: size_s :: rest ->
  handle_command h reg line
  = if live reg nm
    then Replied ("ERR already_exists" ++ LFs)%string reg
    else if malloc_ok h (alloc_request (C.strtoull size_s))
         then if node_ok h
              then if name_ok h
                   then Replied ("OK" ++ LFs)%string
                          (mkNode nm
                             (fresh_block h (alloc_request (C.strtoull size_s)))
                             (C.strtoull size_s) :: reg)
                   else Nameless ("OK" ++ LFs)%string
              else Undefined
         else Replied ("ERR nomem" ++ LFs)%string reg.
Proof.
  intros Htok. pose proof (tokens_no_nul line) as Hnn. rewrite Htok in Hnn.
  inversion Hnn as [|? ? _ Hnn']; subst. inversion Hnn' as [|? ? Hnm _]; subst.
  rewrite (alloc_reply h reg line nm size_s rest Htok), wrap_strtoull.
  unfold add_alloc, live. fold (alloc_request (C.strtoull size_s)).
  destruct (find_alloc reg nm); [reflexivity|].
  destruct (malloc_ok h _); [|reflexivity].
  destruct (node_ok h); [|reflexivity].
  destruct (name_ok h); [|reflexivity].
  unfold C.strdup. now rewrite (c_str_fixed nm Hnm).
Qed.

Lemma alloc_outcomes_witness :
  handle_command starved_host [] "ALLOC foo 18446744073709551615999"
  = Replied ("ERR nomem" ++ LFs)%string []
  /\ handle_command
       (mkHost (fun _ => true) false true (fun _ => "x"%char) "y"%char) []
       "ALLOC foo 4"
     = Undefined
  /\ handle_command
       (mkHost (fun _ => true) true false (fun _ => "x"%char) "y"%char) []
       "ALLOC foo 4"
     = Nameless ("OK" ++ LFs)%string.
Proof.
  split; [|split].
  - apply (alloc_outcomes starved_host [] "ALLOC foo 18446744073709551615999"
             "foo" "18446744073709551615999" []).
    reflexivity.
  - apply (alloc_outcomes
             (mkHost (fun _ => true) false true (fun _ => "x"%char) "y"%char)
             [] "ALLOC foo 4" "foo" "4" []).
    reflexivity.
  - apply (alloc_outcomes
             (mkHost (fun _ => true) true false (fun _ => "x"%char) "y"%char)
             [] "ALLOC foo 4" "foo" "4" []).
    reflexivity.
Defined.

(** ** After a name that was not copied *)





(** ** Tokens past the last argument *)

(** X25: [handle_command] reads the command and at most three arguments:
    two lines whose first four tokens agree are answered alike and leave
    the same registry, whatever follows on either. *)
Theorem trailing_tokens_ignored (h : host) (reg : registry)
  (line1 line2 : string) :
  firstn 4 (tokens_of line1) = firstn 4 (tokens_of line2) ->
  handle_command h reg line1 = handle_command h reg line2.
Proof.
  intros H. unfold handle_command. fold (tokens_of line1) (tokens_of line2).
  destruct (tokens_of line1) as [|t1 [|a1 [|b1 [|c1 r1]]]];
    destruct (tokens_of line2) as [|t2 [|a2 [|b2 [|c2 r2]]]];
    cbn [firstn] in H; try discriminate H; try reflexivity;
    injection H; intros; subst; reflexivity.
Qed.

Lemma trailing_tokens_ignored_witness :
  handle_command plain_host [mkNode "foo" ["a"%char] 1] "FREE foo bar and more"
  = handle_command plain_host [mkNode "foo" ["a"%char] 1] "FREE foo bar and".
Proof.
  apply trailing_tokens_ignored. reflexivity.
Defined.

(** ** Cutting a session at a newline *)

Lemma lines_from_append (a : string) : forall cur b,
  lines_from cur (a ++ String C.LF b)
  = lines_from cur (a ++ String C.LF EmptyString) ++ lines_from [] b.
Proof.
  induction a as [|c a IH]; intros cur b; cbn [String.append lines_from].
  - now rewrite Ascii.eqb_refl.
  - destruct (Ascii.eqb c C.LF); [|apply IH].
    cbn [app]. f_equal. apply IH.
Qed.

Lemma run_nameless_append : forall l1 hs l2,
  run_nameless hs (l1 ++ l2)
  = match run_nameless hs l1 with
    | (s1, DisconnectedNameless) =>
        let '(s2, e) := run_nameless (fun k => hs (List.length l1 + k)%nat) l2 in
        (s1 ++ s2, e)
    | (s1, e) => (s1, e)
    end.
Proof.
  induction l1 as [|l l1 IH]; intros hs l2; cbn [app run_nameless List.length].
  - change (fun k => hs (0 + k)%nat) with (fun k => hs k).
    now destruct (run_nameless (fun k => hs k) l2).
  - destruct (handle_nameless (hs O) l) as [bytes|]; [|reflexivity].
    rewrite (IH (fun k => hs (S k)) l2).
    destruct (run_nameless (fun k => hs (S k)) l1) as [s1 [r1| |]];
      try reflexivity.
    change (fun k => hs (S (List.length l1 + k)))
      with (fun k => hs (S (List.length l1) + k)%nat).
    now destruct (run_nameless _ l2).
Qed.

Lemma run_lines_append : forall l1 hs reg l2,
  run_lines hs reg (l1 ++ l2)
  = match run_lines hs reg l1 with
    | (s1, Disconnected r1) =>
        let '(s2, e) :=
          run_lines (fun k => hs (List.length l1 + k)%nat) r1 l2 in
        (s1 ++ s2, e)
    | (s1, DisconnectedNameless) =>
        let '(s2, e) :=
          run_nameless (fun k => hs (List.length l1 + k)%nat) l2 in
        (s1 ++ s2, e)
    | (s1, Crashed) => (s1, Crashed)
    end.
Proof.
  induction l1 as [|l l1 IH]; intros hs reg l2; cbn [app run_lines List.length].
  - change (fun k => hs (0 + k)%nat) with (fun k => hs k).
    now destruct (run_lines (fun k => hs k) reg l2).
  - destruct (handle_command (hs O) reg l) as [bytes reg1| |bytes];
      [|reflexivity|].
    + rewrite (IH (fun k => hs (S k)) reg1 l2).
      destruct (run_lines (fun k => hs (S k)) reg1 l1) as [s1 [r1| |]];
        [|reflexivity|];
        change (fun k => hs (S (List.length l1 + k)))
          with (fun k => hs (S (List.length l1) + k)%nat).
      * now destruct (run_lines _ r1 l2).
      * now destruct (run_nameless _ l2).
    + rewrite (run_nameless_append l1 (fun k => hs (S k)) l2).
      destruct (run_nameless (fun k => hs (S k)) l1) as [s1 e1] eqn:E.
      destruct (run_nameless_end _ _ _ _ E) as [->|[-> _]]; [reflexivity|].
      change (fun k => hs (S (List.length l1 + k)))
        with (fun k => hs (S (List.length l1) + k)%nat).
      now destruct (run_nameless _ l2).
Qed.

Lemma run_lines_count_nameless : forall lines hs reg sent,
  run_lines hs reg lines = (sent, DisconnectedNameless) ->
  List.length sent = List.length lines.
Proof.
  induction lines as [|l lines IH]; intros hs reg sent H;
    cbn [run_lines] in H; [discriminate|].
  destruct (handle_command (hs O) reg l) as [bytes reg1| |bytes];
    [|discriminate|].
  - destruct (run_lines _ reg1 lines) as [sent1 e1] eqn:E.
    injection H as <- ->. cbn [List.length]. f_equal.
    now apply (IH _ _ _ E).
  - destruct (run_nameless _ lines) as [sent1 e1] eqn:E.
    injection H as <- ->. cbn [List.length]. f_equal.
    destruct (run_nameless_end _ _ _ _ E) as [He|[_ Hlen]];
      [discriminate He|exact Hlen].
Qed.

Lemma nameless_fold_eq (rs hs : nat -> host) (input : string) :
  (forall k, grants_all (rs k)) ->
  nameless_session rs hs input = run_nameless hs (lines_from [] input).
Proof. intros Hg. apply nameless_loop_is_fold; [exact Hg|lia]. Qed.

(** X26: a client's bytes can be cut after any newline: when the host never
    refuses the line buffer, the session on the whole stream sends what the
    session on the first part sends, followed by what a session on the
    second part sends when it starts from the registry the first part
    left, or from the head without a name it left; this is how the entries
    of one connection reach the next. *)
Theorem session_cut_at_newline (rs hs : nat -> host) (reg : registry)
  (a b : string) :
  (forall k, grants_all (rs k)) ->
  session rs hs reg ((a ++ String C.LF EmptyString) ++ b)
  = match session rs hs reg (a ++ String C.LF EmptyString) with
    | (s1, Disconnected r1) =>
        let '(s2, e) :=
          session (fun k => rs (List.length s1 + k)%nat)
            (fun k => hs (List.length s1 + k)%nat) r1 b in
        (s1 ++ s2, e)
    | (s1, DisconnectedNameless) =>
        let '(s2, e) :=
          nameless_session (fun k => rs (List.length s1 + k)%nat)
            (fun k => hs (List.length s1 + k)%nat) b in
        (s1 ++ s2, e)
    | (s1, Crashed) => (s1, Crashed)
    end.
Proof.
  intros Hg.
  rewrite (session_fold_eq rs hs reg _ Hg).
  rewrite (session_fold_eq rs hs reg (a ++ String C.LF EmptyString) Hg).
  rewrite append_assoc. cbn [String.append].
  rewrite lines_from_append, run_lines_append.
  destruct (run_lines hs reg (lines_from [] (a ++ String C.LF EmptyString)))
    as [s1 [r1| |]] eqn:E; [|reflexivity|].
  - apply run_lines_count in E. rewrite <- E.
    rewrite (session_fold_eq (fun k => rs (List.length s1 + k)%nat)
               (fun k => hs (List.length s1 + k)%nat) r1 b)
      by (intros k; apply Hg).
    reflexivity.
  - apply run_lines_count_nameless in E. rewrite <- E.
    rewrite (nameless_fold_eq (fun k => rs (List.length s1 + k)%nat)
               (fun k => hs (List.length s1 + k)%nat) b)
      by (intros k; apply Hg).
    reflexivity.
Qed.

Lemma session_cut_at_newline_witness :
  session (fun _ => plain_host) (fun _ => plain_host) []
    (("ALLOC foo 3" ++ LFs ++ "LIST" ++ String C.LF EmptyString)
     ++ "FREE foo" ++ LFs ++ "LIST" ++ LFs)%string
  = ([("OK" ++ LFs)%string; ("OK foo:3;" ++ LFs)%string;
      ("OK" ++ LFs)%string; ("OK " ++ LFs)%string],
     Disconnected []).
Proof.
  exact (session_cut_at_newline (fun _ => plain_host) (fun _ => plain_host)
           [] ("ALLOC foo 3" ++ LFs ++ "LIST")%string
           ("FREE foo" ++ LFs ++ "LIST" ++ LFs)%string
           (fun k sz => eq_refl)).
Defined.

(** ** One line in, one line out *)

Lemma all_chars_c_str p (s : string) :
  all_chars p s = true -> all_chars p (C.c_str s) = true.
Proof.
  induction s as [|c s IH]; cbn [C.c_str all_chars]; [reflexivity|].
  intros H. apply andb_prop in H as [Hc Hs].
  destruct (Ascii.eqb c C.NUL); [reflexivity|].
  cbn [all_chars]. now rewrite Hc, IH.
Qed.

Lemma strtok_from_all_chars p (s : string) : forall cur,
  forallb p cur = true -> all_chars p s = true ->
  Forall (fun t => all_chars p t = true) (C.strtok_from cur s).
Proof.
  induction s as [|c s IH]; intros cur Hcur Hs; cbn [C.strtok_from].
  - destruct cur; [constructor|]. constructor; [|constructor].
    rewrite all_chars_of_list. now apply forallb_rev_true.
  - cbn [all_chars] in Hs. apply andb_prop in Hs as [Hc Hs].
    destruct (Ascii.eqb c C.SP).
    + destruct cur; [now apply IH|].
      constructor; [|now apply IH].
      rewrite all_chars_of_list. now apply forallb_rev_true.
    + apply IH; [|exact Hs]. cbn [forallb]. now rewrite Hc, Hcur.
Qed.

Lemma tokens_all_chars p (line : string) :
  all_chars p line = true ->
  Forall (fun t => all_chars p t = true) (tokens_of line).
Proof.
  intros H. apply strtok_from_all_chars; [reflexivity|].
  now apply all_chars_c_str.
Qed.

Lemma all_chars_weaken (p q : ascii -> bool) (s : string) :
  (forall c, p c = true -> q c = true) ->
  all_chars p s = true -> all_chars q s = true.
Proof.
  intros Hpq. induction s as [|c s IH]; cbn [all_chars]; [reflexivity|].
  intros H. apply andb_prop in H as [Hc Hs]. now rewrite (Hpq c Hc), IH.
Qed.

Lemma no_lf_append (a b : string) :
  no_lf (a ++ b) = no_lf a && no_lf b.
Proof. apply all_chars_append. Qed.

Lemma uint_no_lf (d : Decimal.uint) : no_lf (NilEmpty.string_of_uint d) = true.
Proof.
  unfold no_lf. induction d; cbn [NilEmpty.string_of_uint all_chars];
    try reflexivity; exact IHd.
Qed.

Lemma fmt_zu_no_lf (z : Z) : no_lf (C.fmt_zu z) = true.
Proof.
  unfold C.fmt_zu, NilZero.string_of_uint.
  destruct (N.to_uint (Z.to_N z)); try reflexivity; apply uint_no_lf.
Qed.

Lemma listing_no_lf (reg : registry) :
  names_no_lf reg -> no_lf (listing reg) = true.
Proof.
  unfold names_no_lf.
  induction reg as [|n reg IH]; cbn [map forallb listing]; [reflexivity|].
  intros H. apply andb_prop in H as [Hn Hreg].
  unfold list_item. rewrite !no_lf_append, Hn, fmt_zu_no_lf, (IH Hreg).
  reflexivity.
Qed.

Lemma substring_0_length (s : string) : forall n,
  String.length (String.substring 0 n s) = Nat.min n (String.length s).
Proof.
  induction s as [|c s IH]; intros n.
  - now destruct n.
  - destruct n as [|n]; cbn [String.substring String.length Nat.min];
      [reflexivity|now rewrite IH].
Qed.

(** What [send_line] sends in at most [BUFSIZE - 2] bytes is its text and
    the newline. *)
Lemma send_line_whole h text bytes :
  send_line h text = Some bytes ->
  1 <= C.len bytes <= C.BUFSIZE - 2 ->
  bytes = (text ++ LFs)%string.
Proof.
  unfold send_line, C.snprintf_kept.
  destruct (INT_MAX <? C.len text).
  { intros [= <-]. unfold C.len. cbn [String.length]. lia. }
  destruct (C.len text <? C.BUFSIZE - 2); [now intros [= <-]|].
  destruct (C.len text =? C.BUFSIZE - 2) eqn:E1.
  { apply Z.eqb_eq in E1. intros [= <-]. rewrite len_append.
    unfold C.len in *. rewrite substring_0_length.
    cbn [String.length]. unfold C.BUFSIZE in *. lia. }
  destruct (C.len text =? C.BUFSIZE - 1) eqn:E2; [|discriminate].
  apply Z.eqb_eq in E2. intros [= <-]. rewrite len_append.
  unfold C.len in *. rewrite substring_0_length.
  cbn [String.length]. unfold C.BUFSIZE in *. lia.
Qed.

Lemma reply_one_line h text reg bytes reg' :
  reply h text reg = Replied bytes reg' ->
  1 <= C.len bytes <= C.BUFSIZE - 2 ->
  no_lf text = true ->
  (exists t, bytes = (t ++ LFs)%string /\ no_lf t = true) /\ reg' = reg.
Proof.
  unfold reply. destruct (send_line h text) as [b|] eqn:E; [|discriminate].
  intros [= <- <-] Hlen Htext. split; [|reflexivity].
  exists text. split; [now apply (send_line_whole h)|exact Htext].
Qed.

Lemma names_no_lf_remove reg nm reg' :
  names_no_lf reg -> remove_alloc reg nm = Some reg' -> names_no_lf reg'.
Proof.
  unfold names_no_lf. rewrite !forallb_forall. intros H Hr x Hx.
  apply H. now apply (remove_alloc_incl reg nm reg').
Qed.

(** X27: in a session one line in gives one line out: when the names of
    the registry and the request line hold no newline, a reply of at most
    [BUFSIZE - 2] bytes is a text without a newline followed by a single
    newline, and the names of the registry still hold none.  (Longer
    replies are the ones [send_line] cuts.) *)
Theorem reply_is_one_line (h : host) (reg reg' : registry)
  (line bytes : string) :
  names_no_lf reg ->
  no_lf line = true ->
  handle_command h reg line = Replied bytes reg' ->
  1 <= C.len bytes <= C.BUFSIZE - 2 ->
  (exists text, bytes = (text ++ LFs)%string /\ no_lf text = true)
  /\ names_no_lf reg'.
Proof.
  intros Hinv Hline H Hlen.
  pose proof (tokens_all_chars _ line Hline) as Htoks.
  unfold handle_command in H. fold (tokens_of line) in H.
  destruct (tokens_of line) as [|tok args].
  { apply reply_one_line in H as [Ht ->]; auto. }
  destruct (C.streq tok "ALLOC").
  { destruct args as [|nm [|size_s args]];
      try (apply reply_one_line in H as [Ht ->]; now auto).
    destruct (add_alloc h reg nm _) as [r| | | |] eqn:E; try discriminate H;
      try (apply reply_one_line in H as [Ht ->]; now auto).
    apply reply_one_line in H as [Ht ->]; auto. split; [exact Ht|].
    apply add_alloc_added in E as [_ ->].
    inversion Htoks as [|? ? _ Hargs]; subst.
    inversion Hargs as [|? ? Hnm _]; subst.
    unfold names_no_lf in *. cbn [map forallb name]. rewrite Hinv, andb_true_r.
    now apply all_chars_c_str. }
  destruct (C.streq tok "WRITE").
  { destruct args as [|nm [|offset_s [|b64 args]]];
      try (apply reply_one_line in H as [Ht ->]; now auto).
    destruct (find_alloc reg nm) as [n|];
      [|apply reply_one_line in H as [Ht ->]; now auto].
    destruct (base64_decode h b64) as [data|];
      [|apply reply_one_line in H as [Ht ->]; now auto].
    destruct (size n <? _);
      [apply reply_one_line in H as [Ht ->]; now auto|].
    destruct (memcpy_at (ptr n) _ data) as [blk|]; [|discriminate].
    apply reply_one_line in H as [Ht ->]; auto. split; [exact Ht|].
    unfold names_no_lf. now rewrite store_alloc_names. }
  destruct (C.streq tok "READ").
  { destruct args as [|nm [|offset_s [|len_s args]]];
      try (apply reply_one_line in H as [Ht ->]; now auto).
    destruct (find_alloc reg nm) as [n|];
      [|apply reply_one_line in H as [Ht ->]; now auto].
    destruct (size n <? _);
      [apply reply_one_line in H as [Ht ->]; now auto|].
    unfold base64_encode_at in H.
    destruct (malloc_ok h _);
      [|apply reply_one_line in H as [Ht ->]; now auto].
    destruct (mem_read (ptr n) _ _) as [data|]; [|discriminate].
    apply reply_one_line in H as [Ht ->]; auto.
    rewrite no_lf_append. cbn [andb].
    change (no_lf "OK ") with true. cbn [andb].
    destruct (encoder_text_only data) as [Htext Hlf].
    apply (all_chars_weaken b64_text); [|exact Htext].
    intros c Hc. apply negb_true_iff, Ascii.eqb_neq. intros ->.
    rewrite Hlf in Hc. discriminate. }
  destruct (C.streq tok "FREE").
  { destruct args as [|nm args];
      [apply reply_one_line in H as [Ht ->]; now auto|].
    destruct (remove_alloc reg nm) as [r|] eqn:E;
      apply reply_one_line in H as [Ht ->]; auto.
    split; [exact Ht|]. now apply (names_no_lf_remove reg nm). }
  destruct (C.streq tok "LIST").
  { apply reply_one_line in H as [Ht ->]; auto.
    destruct (list_loop_prefix reg 0 EmptyString eq_refl) as [cut [E _]];
      [reflexivity|].
    pose proof (listing_no_lf reg Hinv) as Hl.
    cbn [String.append] in E. rewrite E, no_lf_append in Hl.
    apply andb_prop in Hl as [Hl _].
    rewrite no_lf_append. now rewrite Hl. }
  destruct (C.streq tok "EXIT"); apply reply_one_line in H as [Ht ->]; auto.
Qed.

Lemma reply_is_one_line_witness :
  (exists text, ("OK foo:3;bar:0;" ++ LFs)%string = (text ++ LFs)%string
                /\ no_lf text = true)
  /\ names_no_lf [mkNode "foo" [] 3; mkNode "bar" [] 0].
Proof.
  apply (reply_is_one_line plain_host
           [mkNode "foo" [] 3; mkNode "bar" [] 0]
           [mkNode "foo" [] 3; mkNode "bar" [] 0] "LIST");
    try reflexivity.
  vm_compute. split; discriminate.
Defined.

(** ** Sums that wrap *)

(** X28: on a live entry whose block covers its size, a READ or a WRITE
    whose [offset + len] reaches [2 ^ 64] is never answered [OK]: it is
    answered [ERR out_of_bounds] when the wrapped sum still exceeds the
    size; otherwise a READ is answered [ERR nomem] when the host refuses
    the text buffer, which [base64_encode] asks for before it reads a byte,
    and addresses memory outside the block when the host grants it, and a
    WRITE addresses memory outside the block. *)
Theorem wrapped_sum_outcomes :
  (forall h reg line nm offset_s len_s rest n,
     blocks_ok reg ->
     tokens_of line = "READ" :: nm :: offset_s :: len_s :: rest ->
     find_alloc reg nm = Some n ->
     2 ^ 64 <= C.strtoull offset_s + C.strtoull len_s ->
     handle_command h reg line
     = if size n <? C.strtoull offset_s + C.strtoull len_s - 2 ^ 64
       then Replied ("ERR out_of_bounds" ++ LFs)%string reg
       else if malloc_ok h (encode_request (C.strtoull len_s))
            then Undefined
            else Replied ("ERR nomem" ++ LFs)%string reg)
  /\ (forall h reg line nm offset_s b64 rest n data,
        blocks_ok reg ->
        tokens_of line = "WRITE" :: nm :: offset_s :: b64 :: rest ->
        find_alloc reg nm = Some n ->
        base64_decode h b64 = Some data ->
        2 ^ 64 <= C.strtoull offset_s + Z.of_nat (List.length data) < 2 ^ 65 ->
        handle_command h reg line
        = if size n <? C.strtoull offset_s + Z.of_nat (List.length data) - 2 ^ 64
          then Replied ("ERR out_of_bounds" ++ LFs)%string reg
          else Undefined).
Proof.
  assert (forall z, 2 ^ 64 <= z < 2 ^ 65 -> C.wrap z = z - 2 ^ 64) as Hwrap.
  { intros z Hz. unfold C.wrap, C.SIZE_BITS.
    rewrite <- (Z.mod_small (z - 2 ^ 64) (2 ^ 64)) by lia.
    replace z with (z - 2 ^ 64 + 1 * 2 ^ 64) at 1 by lia.
    now rewrite Z.mod_add by lia. }
  split.
  - intros h reg line nm offset_s len_s rest n Hinv Htok Hfind Hsum.
    on_tokens line Htok.
    cbn [C.streq String.eqb Ascii.eqb Bool.eqb andb]. rewrite Hfind.
    pose proof (strtoull_range offset_s) as Ho.
    pose proof (strtoull_range len_s) as Hl.
    rewrite !wrap_strtoull, Hwrap by lia.
    destruct (size n <? _); [now short_reply|].
    apply (blocks_ok_find reg nm n Hinv), block_ok_spec in Hfind as [Hs Hb].
    unfold base64_encode_at.
    destruct (malloc_ok h _); [|now short_reply].
    unfold mem_read.
    assert ((C.strtoull offset_s + C.strtoull len_s
             <=? Z.of_nat (List.length (ptr n))) = false) as ->;
      [|reflexivity].
    apply Z.leb_gt. rewrite Hb. unfold alloc_request.
    destruct (size n =? 0); lia.
  - intros h reg line nm offset_s b64 rest n data Hinv Htok Hfind Hdec Hsum.
    on_tokens line Htok.
    cbn [C.streq String.eqb Ascii.eqb Bool.eqb andb]. rewrite Hfind, Hdec.
    pose proof (strtoull_range offset_s) as Ho.
    rewrite wrap_strtoull, Hwrap by lia.
    destruct (size n <? _); [now short_reply|].
    apply (blocks_ok_find reg nm n Hinv), block_ok_spec in Hfind as [Hs Hb].
    unfold memcpy_at.
    assert ((C.strtoull offset_s + Z.of_nat (List.length data)
             <=? Z.of_nat (List.length (ptr n))) = false) as ->;
      [|reflexivity].
    apply Z.leb_gt. rewrite Hb. unfold alloc_request.
    destruct (size n =? 0); lia.
Qed.

Lemma wrapped_sum_outcomes_witness :
  handle_command starved_host [mkNode "foo" (fresh_block plain_host 10) 10]
    "READ foo 3 18446744073709551613"
  = Replied ("ERR nomem" ++ LFs)%string
      [mkNode "foo" (fresh_block plain_host 10) 10]
  /\ handle_command plain_host [mkNode "foo" (fresh_block plain_host 4) 4]
       "WRITE foo 18446744073709551614 QUJD"
     = Undefined.
Proof.
  destruct wrapped_sum_outcomes as [Hread Hwrite]. split.
  - apply (Hread starved_host [mkNode "foo" (fresh_block plain_host 10) 10]
             "READ foo 3 18446744073709551613" "foo"
             "3" "18446744073709551613" []
             (mkNode "foo" (fresh_block plain_host 10) 10));
      try reflexivity; vm_compute; discriminate.
  - apply (Hwrite plain_host [mkNode "foo" (fresh_block plain_host 4) 4]
             "WRITE foo 18446744073709551614 QUJD" "foo"
             "18446744073709551614" "QUJD" []
             (mkNode "foo" (fresh_block plain_host 4) 4)
             (list_ascii_of_string "ABC"));
      try reflexivity. vm_compute. split; [discriminate|reflexivity].
Defined.
